(** * Librarian: the controller of [src/librarian/controller.py]

    A shallow embedding of [LibrarianController] and of [get_path].

    Python mutates [self] and the outside world and may raise at any point,
    keeping every mutation done so far.  The embedding is therefore a state
    monad whose result is either a value or an exception, and whose state is
    returned in both cases.

    What lives outside the module is explicit in the state:
    - the collaborator [LibraryService] (module [librarian.service]) is an
      interface, [LibraryService], over an abstract store [Svc];
    - the console is a list of pending input lines and a trace of events;
    - [time.time()] reads an oracle at an increasing index;
    - the metadata file [librarian.yaml] is an optional record of the six
      values that [data.get] would return;
    - [os.path] follows [posixpath]. *)

From Stdlib Require Import String Ascii List Bool Arith Lia.
From Stdlib Require Import Sorted Permutation.
Import ListNotations.
Open Scope string_scope.

(** ** Exceptions and results *)

Inductive exn : Type :=
| FolderCollisionException
| InvalidProjectException (project_name : string)
| KeyboardInterrupt (msg : string)
| EOFError
| RecursionError
| TypeError
| ServiceError (msg : string).

Inductive result (A : Type) : Type :=
| Ok (a : A)
| Raise (e : exn).
Arguments Ok {A} a.
Arguments Raise {A} e.

(** ** Module constants *)

Definition LIBRARIAN_FILEPATH : string := "librarian.yaml".

Definition LIBRARY_PATH_KEY : string := "library-path".
Definition WORKSPACE_PATH_KEY : string := "workspace-path".
Definition CURRENT_PROJECT_KEY : string := "current-project".
Definition CREATE_TIME_KEY : string := "create-time".
Definition MODIFY_TIME_KEY : string := "modify-time".
Definition SYNC_TARGET_KEY : string := "sync-targets".

(** ** [posixpath.split] and [posixpath.join] *)

Module posixpath.

Definition sep : ascii := "/"%char.

Definition is_sep (c : ascii) : bool := Ascii.eqb c sep.

(** [rpartition p] cuts [p] after its last separator:
    [p[:i], p[i:]] with [i = p.rfind(sep) + 1]; [None] when [p] has no
    separator (then [i = 0]). *)
Fixpoint rpartition (p : string) : option (string * string) :=
  match p with
  | EmptyString => None
  | String c r =>
      match rpartition r with
      | Some (h, t) => Some (String c h, t)
      | None => if is_sep c then Some (String c EmptyString, r) else None
      end
  end.

Fixpoint all_sep (s : string) : bool :=
  match s with
  | EmptyString => true
  | String c r => is_sep c && all_sep r
  end.

Fixpoint rstrip_sep (s : string) : string :=
  match s with
  | EmptyString => EmptyString
  | String c r =>
      let r' := rstrip_sep r in
      if is_sep c && String.eqb r' EmptyString then EmptyString
      else String c r'
  end.

Definition split (p : string) : string * string :=
  let (head, tail) :=
    match rpartition p with
    | Some ht => ht
    | None => (EmptyString, p)
    end in
  let head :=
    if negb (String.eqb head EmptyString) && negb (all_sep head)
    then rstrip_sep head else head in
  (head, tail).

Definition startswith_sep (s : string) : bool :=
  match s with
  | String c _ => is_sep c
  | EmptyString => false
  end.

Fixpoint endswith_sep (s : string) : bool :=
  match s with
  | EmptyString => false
  | String c EmptyString => is_sep c
  | String _ r => endswith_sep r
  end.

Definition join (a b : string) : string :=
  if startswith_sep b then b
  else if String.eqb a EmptyString || endswith_sep a then a ++ b
  else a ++ String sep b.

End posixpath.

(** ** The collaborator

    [librarian.service.LibraryService], over the store [Svc] it acts on.
    [is_project] and [list_projects] are queries; the other operations
    change the store and may raise, and what they raise reaches the caller
    of the controller. *)

Class LibraryService (Svc : Type) : Type := {
  svc_init : option string -> option string -> option (list string) ->
             Svc -> result unit * Svc;
  svc_is_project : option string -> Svc -> bool;
  svc_create_project : string -> Svc -> result unit * Svc;
  svc_copy_project : string -> option string -> Svc ->
                     result (option string) * Svc;
  svc_pull_project : string -> Svc -> result unit * Svc;
  svc_push_project : string -> Svc -> result unit * Svc;
  svc_list_projects : option string -> Svc -> list string;
  svc_delete_projects : list string -> bool -> Svc -> result unit * Svc
}.

(** ** The state *)

Section Model.

(** Timestamps are the values of [time.time()]; the controller only
    stores and copies them. *)
Context {Time : Type}.

(** The store behind the collaborator service. *)
Context {Svc : Type}.

(** The six values read from, and written to, the metadata file. *)
Record metadata : Type := mkMetadata {
  md_library_path : option string;
  md_workspace_path : option string;
  md_current_project : option string;
  md_create_time : option Time;
  md_modify_time : option Time;
  md_sync_targets : option (list string)
}.

(** The attributes of a [LibrarianController] ([self.service] is the
    interface below, acting on the store [svc] of the world). *)
Record controller : Type := mkController {
  library_path : option string;
  workspace_path : option string;
  current_project : option string;
  create_time : option Time;
  modify_time : option Time;
  sync_targets : option (list string)
}.

(** Calls made on the service, with their arguments. *)
Inductive call : Type :=
| NewService (library workspace : option string)
             (targets : option (list string))
| IsProject (name : option string)
| CreateProject (name : string)
| CopyProject (source : string) (destination : option string)
| PullProject (name : string)
| PushProject (name : string)
| ListProjects (pattern : option string)
| DeleteProjects (names : list string) (safe : bool).

Inductive event : Type :=
| Print (line : string)
| Prompt (text : string)
| Call (c : call).

Record env : Type := mkEnv {
  svc : Svc;
  stdin : list string;
  trace : list event;
  clock : nat -> Time;
  ticks : nat;
  file : option metadata;
  path_exists : string -> bool;
  realpath : string -> string
}.

Record state : Type := mkState {
  self : controller;
  world : env
}.

Context {service : LibraryService Svc}.

(** ** The monad *)

Definition M (A : Type) : Type := state -> result A * state.

Definition ret {A : Type} (a : A) : M A := fun s => (Ok a, s).

Definition raise {A : Type} (e : exn) : M A := fun s => (Raise e, s).

Definition bind {A B : Type} (m : M A) (f : A -> M B) : M B :=
  fun s =>
    match m s with
    | (Ok a, s') => f a s'
    | (Raise e, s') => (Raise e, s')
    end.

Notation "x <- m ;; k" := (bind m (fun x => k))
  (at level 61, m at next level, right associativity).
Notation "m ;; k" := (bind m (fun _ => k))
  (at level 61, right associativity).

(** *** Updates of one field *)

Definition with_self (f : controller -> controller) (s : state) : state :=
  mkState (f (self s)) (world s).

Definition with_world (f : env -> env) (s : state) : state :=
  mkState (self s) (f (world s)).

Definition set_current_project (p : option string) (c : controller)
  : controller :=
  mkController (library_path c) (workspace_path c) p
               (create_time c) (modify_time c) (sync_targets c).

Definition log (e : event) (w : env) : env :=
  mkEnv (svc w) (stdin w) (trace w ++ [e]) (clock w) (ticks w) (file w)
        (path_exists w) (realpath w).

Definition set_stdin (l : list string) (w : env) : env :=
  mkEnv (svc w) l (trace w) (clock w) (ticks w) (file w)
        (path_exists w) (realpath w).

Definition set_svc (v : Svc) (w : env) : env :=
  mkEnv v (stdin w) (trace w) (clock w) (ticks w) (file w)
        (path_exists w) (realpath w).

Definition tick (w : env) : env :=
  mkEnv (svc w) (stdin w) (trace w) (clock w) (S (ticks w)) (file w)
        (path_exists w) (realpath w).

Definition set_file (f : option metadata) (w : env) : env :=
  mkEnv (svc w) (stdin w) (trace w) (clock w) (ticks w) f
        (path_exists w) (realpath w).

(** *** Primitive effects *)

Definition get_self : M controller := fun s => (Ok (self s), s).

Definition put_self (c : controller) : M unit :=
  fun s => (Ok tt, with_self (fun _ => c) s).

Definition assign_current_project (p : option string) : M unit :=
  fun s => (Ok tt, with_self (set_current_project p) s).

Definition emit (e : event) : M unit :=
  fun s => (Ok tt, with_world (log e) s).

Definition print (line : string) : M unit := emit (Print line).

(** [input(prompt)]: the prompt is written, then a line is read;
    at end of input Python raises [EOFError]. *)
Definition input (prompt : string) : M string :=
  emit (Prompt prompt) ;;
  fun s =>
    match stdin (world s) with
    | [] => (Raise EOFError, s)
    | line :: rest => (Ok line, with_world (set_stdin rest) s)
    end.

Definition time_time : M Time :=
  fun s => (Ok (clock (world s) (ticks (world s))), with_world tick s).

(** A call that changes the store and may raise. *)
Definition invoke {A : Type} (c : call) (op : Svc -> result A * Svc)
  : M A :=
  emit (Call c) ;;
  fun s =>
    let (r, v) := op (svc (world s)) in (r, with_world (set_svc v) s).

(** A call that only reads the store. *)
Definition query {A : Type} (c : call) (q : Svc -> A) : M A :=
  emit (Call c) ;;
  fun s => (Ok (q (svc (world s))), s).

Definition os_path_exists (path : string) : M bool :=
  fun s =>
    (Ok (if String.eqb path LIBRARIAN_FILEPATH
         then match file (world s) with Some _ => true | None => false end
         else path_exists (world s) path), s).

Definition os_path_realpath (path : string) : M string :=
  fun s => (Ok (realpath (world s) path), s).

Definition is_none {A : Type} (o : option A) : bool :=
  match o with None => true | Some _ => false end.

Definition option_string_eqb (a : option string) (b : string) : bool :=
  match a with Some x => String.eqb x b | None => false end.

(** ** [spacing] *)

Definition spacing (func : M unit) : M unit :=
  print "-----" ;;
  func ;;
  print "-----".

(** ** [get_path]

    [depth] bounds the nesting of self-calls; beyond it the interpreter
    raises [RecursionError].  The [while] loop runs on [k], the number of
    retries left ([3 - retry_times]). *)
Definition in_ynq (confirmation : string) : bool :=
  existsb (String.eqb confirmation) ["y"; "n"; "q"].

Fixpoint get_path (depth : nat) (role : string) : M string :=
  match depth with
  | O => raise RecursionError
  | S depth' =>
      path <- input ("Enter path to " ++ role
                     ++ " (enter to assign current directory): ") ;;
      let path := if String.eqb path EmptyString then "." else path in
      found <- os_path_exists path ;;
      if negb found then
        print ("Invalid path to " ++ role ++ ": " ++ path
               ++ ". Please try again.") ;;
        get_path depth' role
      else
        path <- os_path_realpath path ;;
        (fix while (k : nat) (confirmation : string) : M string :=
           match k with
           | S k' =>
               if negb (in_ynq confirmation) then
                 confirmation <- input ("Confirm path to " ++ role ++ ": "
                                        ++ path ++ " (y/n/q): ") ;;
                 if String.eqb confirmation "y" then ret path
                 else if String.eqb confirmation "n"
                 then get_path depth' role
                 else if String.eqb confirmation "q"
                 then raise (KeyboardInterrupt "Quitting process.")
                 else
                   print ("Invalid input option: " ++ confirmation) ;;
                   while k' confirmation
               else
                 raise (KeyboardInterrupt
                   "Quitting process due to multiple invalid arguments.")
           | O =>
               raise (KeyboardInterrupt
                 "Quitting process due to multiple invalid arguments.")
           end) 3 EmptyString
  end.

(** ** [LibrarianController] *)

Definition metadata_file : M (option metadata) :=
  fun s => (Ok (file (world s)), s).

Definition write_metadata_file (data : metadata) : M unit :=
  fun s => (Ok tt, with_world (set_file (Some data)) s).

(** The object before [__init__] has run. *)
Definition blank : controller :=
  mkController None None None None None None.

(** [if path is None: path = get_path(role)]. *)
Definition or_get_path (depth : nat) (role : string)
    (path : option string) : M string :=
  match path with
  | None => get_path depth role
  | Some p => ret p
  end.

(** [__init__]: [metadata_file] stands for
    [os.path.exists(LIBRARIAN_FILEPATH)] followed by [yaml.safe_load]. *)
Definition __init__ (depth : nat)
    (library_path workspace_path : option string)
    (sync_targets : option (list string)) : M unit :=
  existing <- metadata_file ;;
  match existing with
  | Some data =>
      put_self (mkController (md_library_path data)
                             (md_workspace_path data)
                             (md_current_project data)
                             (md_create_time data)
                             (md_modify_time data)
                             (md_sync_targets data)) ;;
      print "Retrieved Librarian data."
  | None =>
      library_path <- or_get_path depth "library" library_path ;;
      workspace_path <- or_get_path depth "workspace" workspace_path ;;
      if String.eqb library_path workspace_path
      then raise FolderCollisionException
      else
        print "Initialized Librarian data." ;;
        let sync_targets :=
          match sync_targets with
          | None | Some [] => ["UserData"]
          | Some targets => targets
          end in
        now <- time_time ;;
        put_self (mkController (Some library_path) (Some workspace_path)
                               None (Some now) (Some now)
                               (Some sync_targets))
  end ;;
  c <- get_self ;;
  let '(mkController lib ws _ _ _ targets) := c in
  invoke (NewService lib ws targets) (svc_init lib ws targets).

(** [LibrarianController(...)]: a new object, then [__init__]. *)
Definition LibrarianController (depth : nat)
    (library_path workspace_path : option string)
    (sync_targets : option (list string)) (w : env)
  : result unit * state :=
  __init__ depth library_path workspace_path sync_targets
           (mkState blank w).

(** *** The service, as the controller calls it *)

Definition service_is_project (name : option string) : M bool :=
  query (IsProject name) (svc_is_project name).

Definition service_create_project (name : string) : M unit :=
  invoke (CreateProject name) (svc_create_project name).

Definition service_copy_project (source : string)
    (destination : option string) : M (option string) :=
  invoke (CopyProject source destination)
         (svc_copy_project source destination).

Definition service_pull_project (name : string) : M unit :=
  invoke (PullProject name) (svc_pull_project name).

Definition service_push_project (name : string) : M unit :=
  invoke (PushProject name) (svc_push_project name).

Definition service_list_projects (pattern : option string)
  : M (list string) :=
  query (ListProjects pattern) (svc_list_projects pattern).

Definition service_delete_projects (names : list string) (safe : bool)
  : M unit :=
  invoke (DeleteProjects names safe) (svc_delete_projects names safe).

(** *** Methods *)

Definition display_status : M unit :=
  spacing (
    c <- get_self ;;
    known <- service_is_project (current_project c) ;;
    (if negb known then assign_current_project None else ret tt) ;;
    c <- get_self ;;
    let current_project := current_project c in
    match current_project with
    | None => print "There is no current project assigned."
    | Some name => print ("Current project: " ++ name)
    end).

Definition update_metadata : M unit :=
  c <- get_self ;;
  now <- time_time ;;
  write_metadata_file
    (mkMetadata (library_path c) (workspace_path c) (current_project c)
                (create_time c) (Some now) (sync_targets c)).

Definition _unassign_project : M unit :=
  c <- get_self ;;
  match current_project c with
  | None => print "No project to assign."
  | Some current_project =>
      assign_current_project None ;;
      print ("Unassigned " ++ current_project ++ " from current project.")
  end.

Definition _assign_project (project_name : string) : M unit :=
  c <- get_self ;;
  let current_project := current_project c in
  known <- service_is_project (Some project_name) ;;
  if negb known then raise (InvalidProjectException project_name)
  else
    (if negb (is_none current_project) then _unassign_project
     else ret tt) ;;
    assign_current_project (Some project_name) ;;
    print ("Assigned " ++ project_name ++ " to current project").

Definition create (project_name : string) : M unit :=
  service_create_project project_name ;;
  _assign_project project_name.

Definition copy_full (source_project_name : string)
    (destination_project_name : option string) : M unit :=
  destination_project_name <-
    service_copy_project source_project_name destination_project_name ;;
  match destination_project_name with
  | None => ret tt
  | Some destination =>
      print ("Copied project " ++ source_project_name ++ " to "
             ++ destination)
  end.

(** [os.path.join(directory, None)] raises [TypeError]. *)
Definition copy_relative (source_project_name : string)
    (destination_project_name : option string) : M unit :=
  let (directory, _) := posixpath.split source_project_name in
  match destination_project_name with
  | None => raise TypeError
  | Some destination =>
      copy_full source_project_name
                (Some (posixpath.join directory destination))
  end.

Definition copy (source_project_name : string)
    (destination_project_name : option string) (long : bool) : M unit :=
  if long || is_none destination_project_name
  then copy_full source_project_name destination_project_name
  else copy_relative source_project_name destination_project_name.

Definition assign (project_name : string) : M unit :=
  _assign_project project_name.

Definition pull : M unit :=
  c <- get_self ;;
  match current_project c with
  | Some name => service_pull_project name
  | None => print "No assigned project to pull from."
  end.

Definition push : M unit :=
  c <- get_self ;;
  match current_project c with
  | Some name => service_push_project name
  | None => print "No assigned project to push to."
  end.

Definition dquote : string := String (ascii_of_nat 34) EmptyString.

(** [str(x)] for an optional name. *)
Definition str (o : option string) : string :=
  match o with Some name => name | None => "None" end.

(** [depth] bounds the nesting of self-calls, as in [get_path]. *)
Fixpoint load_project (depth : nat) (project_name : string) : M unit :=
  match depth with
  | O => raise RecursionError
  | S depth' =>
      c <- get_self ;;
      let current_project := current_project c in
      if is_none current_project
         || option_string_eqb current_project project_name
      then
        _assign_project project_name ;;
        pull
      else
        confirmation <-
          input (dquote ++ str current_project ++ dquote
                 ++ " is assigned to current project. Overwrite? (y/n): ") ;;
        if negb (String.eqb confirmation "y") then ret tt
        else
          assign_current_project None ;;
          load_project depth' project_name
  end.

Definition contains (x : option string) (names : list string) : bool :=
  existsb (option_string_eqb x) names.

(** The self-call passes [project_names] and [None] only, so [safe]
    takes its default, [True]. *)
Fixpoint delete_projects (depth : nat) (project_names : list string)
    (pattern : option string) (safe : bool) : M unit :=
  match depth with
  | O => raise RecursionError
  | S depth' =>
      if Nat.eqb (List.length project_names) 0 then
        project_names <- service_list_projects pattern ;;
        delete_projects depth' project_names None true
      else
        service_delete_projects project_names safe ;;
        c <- get_self ;;
        if contains (current_project c) project_names
        then _unassign_project
        else ret tt
  end.

(** *** [list_projects]

    [projects.sort()] puts the names in ascending order, strings being
    compared character code by character code; on names the outcome does
    not depend on the sorting method, and insertion is used here. *)
Fixpoint insert_sorted (name : string) (names : list string)
  : list string :=
  match names with
  | [] => [name]
  | n :: rest =>
      if String.leb name n then name :: names
      else n :: insert_sorted name rest
  end.

Definition list_sort (names : list string) : list string :=
  fold_right insert_sorted [] names.

(** [for x in xs: body(x)]. *)
Fixpoint for_each {A : Type} (xs : list A) (body : A -> M unit) : M unit :=
  match xs with
  | [] => ret tt
  | x :: rest => body x ;; for_each rest body
  end.

Definition list_projects (pattern : option string) : M unit :=
  spacing (
    projects <- service_list_projects pattern ;;
    let projects := list_sort projects in
    match projects with
    | [] => print "No projects found in library."
    | _ => for_each projects (fun project => print ("- " ++ project))
    end).

End Model.

Arguments metadata : clear implicits.
Arguments controller : clear implicits.
Arguments env : clear implicits.
Arguments state : clear implicits.
Arguments M : clear implicits.

(** ** An in-memory library

    A service whose store is the list of the project names it holds; every
    pattern matches every project.  It is used to run the controller on
    concrete inputs. *)

Module Shelf.

Definition holds (name : string) (shelf : list string) : bool :=
  existsb (String.eqb name) shelf.

Definition is_project (name : option string) (shelf : list string)
  : bool :=
  match name with
  | Some n => holds n shelf
  | None => false
  end.

Definition copy_project (source : string) (destination : option string)
    (shelf : list string) : result (option string) * list string :=
  match destination with
  | Some d => if holds source shelf then (Ok (Some d), (shelf ++ [d])%list)
              else (Ok None, shelf)
  | None => (Ok None, shelf)
  end.

Definition delete_projects (names : list string) (safe : bool)
    (shelf : list string) : result unit * list string :=
  (Ok tt, filter (fun n => negb (holds n names)) shelf).

#[global] Instance service : LibraryService (list string) := {
  svc_init := fun _ _ _ shelf => (Ok tt, shelf);
  svc_is_project := is_project;
  svc_create_project := fun name shelf => (Ok tt, (shelf ++ [name])%list);
  svc_copy_project := copy_project;
  svc_pull_project := fun _ shelf => (Ok tt, shelf);
  svc_push_project := fun _ shelf => (Ok tt, shelf);
  svc_list_projects := fun _ shelf => shelf;
  svc_delete_projects := delete_projects
}.

(** A world with the given shelf, pending input and metadata file; the
    clock reads its own index, starting at [now]. *)
Definition a_world (shelf : list string) (lines : list string)
    (now : nat) (data : option (metadata nat)) : env nat (list string) :=
  mkEnv shelf lines [] (fun n => n) now data (fun _ => true) (fun p => p).

Definition a_controller (current : option string)
  : controller nat :=
  mkController (Some "/lib") (Some "/ws") current (Some 0) (Some 0)
               (Some ["UserData"]).

Definition a_state (current : option string) (shelf : list string)
    (lines : list string) : state nat (list string) :=
  mkState (a_controller current) (a_world shelf lines 5 None).


End Shelf.
Notation "x <- m ;; k" := (bind m (fun x => k))
  (at level 61, m at next level, right associativity).
Notation "m ;; k" := (bind m (fun _ => k))
  (at level 61, right associativity).

(** ** Notions used in the statements *)

Section Statements.

Context {Time Svc : Type} {service : LibraryService Svc}.

(** The world after the events [es] were appended to its trace. *)
Definition logs (es : list event) (w : env Time Svc) : env Time Svc :=
  mkEnv (svc w) (stdin w) (trace w ++ es) (clock w) (ticks w) (file w)
        (path_exists w) (realpath w).

(** The answer of the service about a name, in a state. *)
Definition confirms (s : state Time Svc) (name : option string) : bool :=
  svc_is_project name (svc (world s)).

(** The specification of [load]: [assign(X)] followed by a pull for [X]. *)
Definition assign_then_pull (X : string) : M Time Svc unit :=
  assign X ;;
  service_pull_project X.

(** The prompt of [load_project] when [Y] is assigned. *)
Definition overwrite_prompt (Y : string) : string :=
  dquote ++ Y ++ dquote
  ++ " is assigned to current project. Overwrite? (y/n): ".

(** The commands a user can issue once the controller exists: every
    method of the class other than [__init__]. *)
Inductive action : Type :=
| DisplayStatus
| UpdateMetadata
| Unassign
| Create (name : string)
| CopyFull (source : string) (destination : option string)
| CopyRelative (source : string) (destination : option string)
| Copy (source : string) (destination : option string) (long : bool)
| Assign (name : string)
| Pull
| Push
| Load (name : string)
| Listing (pattern : option string)
| Delete (names : list string) (pattern : option string) (safe : bool).

Definition run (depth : nat) (a : action) : M Time Svc unit :=
  match a with
  | DisplayStatus => display_status
  | UpdateMetadata => update_metadata
  | Unassign => _unassign_project
  | Create name => create name
  | CopyFull source destination => copy_full source destination
  | CopyRelative source destination => copy_relative source destination
  | Copy source destination long => copy source destination long
  | Assign name => assign name
  | Pull => pull
  | Push => push
  | Load name => load_project depth name
  | Listing pattern => list_projects pattern
  | Delete names pattern safe => delete_projects depth names pattern safe
  end.

(** A controller with its [current_project] slot emptied: what is left
    are the five attributes that no command is meant to change. *)
Definition settings (c : controller Time) : controller Time :=
  set_current_project None c.

(** A computation that leaves those five attributes as they are, whether
    it returns or raises. *)
Definition keeps_settings {A : Type} (m : M Time Svc A) : Prop :=
  forall s, settings (self (snd (m s))) = settings (self s).

(** What [update_metadata] writes for a controller at a given time. *)
Definition persisted (c : controller Time) (now : Time) : metadata Time :=
  mkMetadata (library_path c) (workspace_path c) (current_project c)
             (create_time c) (Some now) (sync_targets c).

(** *** Notions for [get_path] *)

(** What [os.path.exists] answers in a world. *)
Definition path_found (w : env Time Svc) (path : string) : bool :=
  if String.eqb path LIBRARIAN_FILEPATH
  then match file w with Some _ => true | None => false end
  else path_exists w path.

(** A state with its console erased: what is left is the controller, the
    store, the clock, the metadata file and the file system. *)
Definition offstage (s : state Time Svc) : state Time Svc :=
  mkState (self s)
          (mkEnv (svc (world s)) [] [] (clock (world s)) (ticks (world s))
                 (file (world s)) (path_exists (world s))
                 (realpath (world s))).

Definition is_call (e : event) : bool :=
  match e with Call _ => true | _ => false end.

(** [s'] comes from [s] by console traffic alone: lines were read,
    prompts and lines were written, and nothing else happened. *)
Definition console_only (s s' : state Time Svc) : Prop :=
  offstage s' = offstage s /\
  (exists used, stdin (world s) = (used ++ stdin (world s'))%list) /\
  (exists es, trace (world s') = (trace (world s) ++ es)%list /\
              forallb (fun e => negb (is_call e)) es = true).

(** [p] is the canonical form of a path that exists. *)
Definition checked_path (s : state Time Svc) (p : string) : Prop :=
  exists q, path_found (world s) q = true /\ p = realpath (world s) q.

(** The confirmation loop of [get_path], with [retry] for the self-call
    made on the answer [n]. *)
Fixpoint confirm_loop (retry : M Time Svc string) (role path : string)
    (k : nat) (confirmation : string) : M Time Svc string :=
  match k with
  | S k' =>
      if negb (in_ynq confirmation) then
        confirmation <- input ("Confirm path to " ++ role ++ ": "
                               ++ path ++ " (y/n/q): ") ;;
        if String.eqb confirmation "y" then ret path
        else if String.eqb confirmation "n" then retry
        else if String.eqb confirmation "q"
        then raise (KeyboardInterrupt "Quitting process.")
        else
          print ("Invalid input option: " ++ confirmation) ;;
          confirm_loop retry role path k' confirmation
      else
        raise (KeyboardInterrupt
          "Quitting process due to multiple invalid arguments.")
  | O =>
      raise (KeyboardInterrupt
        "Quitting process due to multiple invalid arguments.")
  end.

(** The line typed at the path prompt, as [get_path] reads it. *)
Definition typed_path (line : string) : string :=
  if String.eqb line EmptyString then "." else line.

(** *** Sequences of commands *)

(** The commands of a list run one after the other, each on the state
    the one before left, whether that one returned or raised. *)
Fixpoint run_all (depth : nat) (actions : list action)
    (s : state Time Svc) : state Time Svc :=
  match actions with
  | [] => s
  | a :: rest => run_all depth rest (snd (run depth a s))
  end.

(** The two operations on the current-project slot. *)
Inductive slot_op : Type :=
| SlotAssign (name : string)
| SlotUnassign.

Definition run_slot_op (op : slot_op) : M Time Svc unit :=
  match op with
  | SlotAssign name => assign name
  | SlotUnassign => _unassign_project
  end.

Fixpoint run_slot_ops (ops : list slot_op) (s : state Time Svc)
  : state Time Svc :=
  match ops with
  | [] => s
  | op :: rest => run_slot_ops rest (snd (run_slot_op op s))
  end.

(** The slot after a list of operations, given which names are known:
    an assignment of a known name fills it, one of an unknown name leaves
    it, an unassignment empties it. *)
Fixpoint slot_after (known : string -> bool) (ops : list slot_op)
    (slot : option string) : option string :=
  match ops with
  | [] => slot
  | SlotAssign name :: rest =>
      slot_after known rest (if known name then Some name else slot)
  | SlotUnassign :: rest => slot_after known rest None
  end.

(** The lines [list_projects] prints between the two rules. *)
Definition listing_lines (names : list string) : list event :=
  match names with
  | [] => [Print "No projects found in library."]
  | _ => map (fun name => Print ("- " ++ name)) names
  end.

(** The destination [copy] hands to the service. *)
Definition copy_destination (source : string) (destination : option string)
    (long : bool) : option string :=
  if long then destination
  else option_map (posixpath.join (fst (posixpath.split source)))
                  destination.

(** A name without separator. *)
Fixpoint sep_free (name : string) : bool :=
  match name with
  | EmptyString => true
  | String c rest => negb (posixpath.is_sep c) && sep_free rest
  end.

(** The order [list.sort()] uses on names. *)
Definition name_le (a b : string) : Prop := String.leb a b = true.

End Statements.

(** * Properties *)

Section Properties.

Context {Time Svc : Type} {service : LibraryService Svc}.

Local Abbreviation St := (state Time Svc).

(** ** Reasoning steps *)

(** Two runs that differ only in how their traces are bracketed. *)
Ltac same_state :=
  cbv - [app String.append];
  repeat rewrite <- app_assoc;
  cbn [app];
  reflexivity.

Lemma bind_ok {A B : Type} (m : M Time Svc A) (f : A -> M Time Svc B)
    (s s' : St) (a : A) :
  m s = (Ok a, s') -> bind m f s = f a s'.
Proof. intros E; unfold bind; now rewrite E. Qed.

Lemma bind_raise {A B : Type} (m : M Time Svc A) (f : A -> M Time Svc B)
    (s s' : St) (e : exn) :
  m s = (Raise e, s') -> bind m f s = (Raise e, s').
Proof. intros E; unfold bind; now rewrite E. Qed.

Lemma service_is_project_run (name : option string) (s : St) :
  service_is_project name s
  = (Ok (confirms s name), with_world (log (Call (IsProject name))) s).
Proof. reflexivity. Qed.

(** [_unassign_project] always returns and leaves nothing assigned. *)
Lemma unassign_run (s : St) :
  _unassign_project s
  = (Ok tt,
     match current_project (self s) with
     | None => with_world (log (Print "No project to assign.")) s
     | Some Y =>
         with_world
           (log (Print ("Unassigned " ++ Y ++ " from current project.")))
           (with_self (set_current_project None) s)
     end).
Proof.
  unfold _unassign_project, bind, get_self.
  destruct (current_project (self s)); reflexivity.
Qed.

(** What [_assign_project] does when the service knows the name. *)
Lemma assign_known (X : string) (s : St) :
  confirms s (Some X) = true ->
  assign X s
  = (Ok tt,
     mkState
       (set_current_project (Some X) (self s))
       (logs (Call (IsProject (Some X))
              :: match current_project (self s) with
                 | None => []
                 | Some Y =>
                     [Print ("Unassigned " ++ Y
                             ++ " from current project.")]
                 end
              ++ [Print ("Assigned " ++ X ++ " to current project")])
             (world s))).
Proof.
  intros K. unfold assign, _assign_project.
  unfold bind at 1. unfold get_self at 1.
  rewrite (bind_ok _ _ _ _ _ (service_is_project_run _ s)).
  rewrite K. cbn [negb].
  destruct s as [c w]. cbn [self].
  destruct (current_project c) as [Y|] eqn:E.
  - cbn [is_none negb]. unfold bind at 1. rewrite unassign_run.
    cbn [self with_world world]. rewrite E. same_state.
  - cbn [is_none negb]. same_state.
Qed.

Lemma assign_unknown (X : string) (s : St) :
  confirms s (Some X) = false ->
  assign X s
  = (Raise (InvalidProjectException X),
     with_world (log (Call (IsProject (Some X)))) s).
Proof.
  intros K. unfold assign, _assign_project.
  unfold bind at 1. unfold get_self at 1.
  rewrite (bind_ok _ _ _ _ _ (service_is_project_run _ s)).
  rewrite K. reflexivity.
Qed.

Lemma pull_assigned (X : string) (s : St) :
  current_project (self s) = Some X ->
  pull s = service_pull_project X s.
Proof. intros E. unfold pull, bind, get_self. now rewrite E. Qed.

(** ** assign *)

(** C3.  When the service does not confirm [name] as a known project,
    [assign name] raises [InvalidProjectException name] and leaves the
    controller, hence [current_project], as it was; and [assign name]
    returns normally exactly when the service confirms [name]. *)
Theorem assign_invalid_project (name : string) (s : St) :
  (confirms s (Some name) = false ->
     fst (assign name s) = Raise (InvalidProjectException name) /\
     self (snd (assign name s)) = self s /\
     current_project (self (snd (assign name s)))
     = current_project (self s)) /\
  (fst (assign name s) = Ok tt <-> confirms s (Some name) = true).
Proof.
  split.
  - intros K. rewrite (assign_unknown _ _ K). now cbn.
  - destruct (confirms s (Some name)) eqn:K.
    + rewrite (assign_known _ _ K). now cbn.
    + rewrite (assign_unknown _ _ K). cbn. split; discriminate.
Qed.

(** C4.  For a name [X] that the service confirms, [assign X] returns with
    [current_project = X] whatever was assigned before, and a second
    [assign X] returns with [current_project = X] again, after it has
    unassigned [X] (the trace shows the unassignment between the query and
    the assignment). *)
Theorem assign_twice (X : string) (s : St) :
  confirms s (Some X) = true ->
  let s1 := snd (assign X s) in
  let s2 := snd (assign X s1) in
  fst (assign X s) = Ok tt /\
  current_project (self s1) = Some X /\
  fst (assign X s1) = Ok tt /\
  current_project (self s2) = Some X /\
  trace (world s2)
  = (trace (world s1)
     ++ [Call (IsProject (Some X));
         Print ("Unassigned " ++ X ++ " from current project.");
         Print ("Assigned " ++ X ++ " to current project")])%list.
Proof.
  intros K s1 s2.
  assert (K1 : confirms s1 (Some X) = true).
  { subst s1. rewrite (assign_known _ _ K). exact K. }
  assert (E1 : current_project (self s1) = Some X).
  { subst s1. now rewrite (assign_known _ _ K). }
  subst s2. rewrite (assign_known _ _ K1), E1.
  fold s1. rewrite (assign_known _ _ K).
  repeat split; reflexivity.
Qed.

(** ** load *)

Lemma load_direct (depth : nat) (X : string) (s : St) :
  current_project (self s) = None \/ current_project (self s) = Some X ->
  load_project (S depth) X s = (assign X ;; pull) s.
Proof.
  intros H. cbn [load_project]. unfold bind at 1. unfold get_self at 1.
  destruct H as [-> | ->]; cbn [is_none option_string_eqb orb].
  - reflexivity.
  - now rewrite String.eqb_refl.
Qed.

(** C5.  When nothing is assigned, or [X] already is, [load_project X]
    is [assign X] followed by a pull for [X]: same result, same
    controller, same world (store, console and trace of service calls).
    It is also [assign X] followed by the method [pull]. *)
Theorem load_is_assign_then_pull (depth : nat) (X : string) (s : St) :
  current_project (self s) = None \/ current_project (self s) = Some X ->
  load_project (S depth) X s = assign_then_pull X s /\
  load_project (S depth) X s = (assign X ;; pull) s.
Proof.
  intros H. pose proof (load_direct depth X s H) as L.
  split; [ | exact L].
  rewrite L. unfold assign_then_pull.
  destruct (confirms s (Some X)) eqn:K.
  - rewrite !(bind_ok _ _ _ _ _ (assign_known _ _ K)).
    now apply pull_assigned.
  - now rewrite !(bind_raise _ _ _ _ _ (assign_unknown _ _ K)).
Qed.

Lemma load_declined_run (depth : nat) (X Y answer : string)
    (rest : list string) (s : St) :
  current_project (self s) = Some Y ->
  Y <> X ->
  stdin (world s) = answer :: rest ->
  answer <> "y" ->
  load_project (S depth) X s
  = (Ok tt,
     with_world
       (fun w => set_stdin rest (log (Prompt (overwrite_prompt Y)) w)) s).
Proof.
  intros E N I A.
  apply String.eqb_neq in N, A.
  cbn [load_project]. unfold bind at 1. unfold get_self at 1.
  rewrite E. cbn [is_none option_string_eqb orb str]. rewrite N.
  unfold input, bind, emit. cbn [with_world world log stdin].
  rewrite I, A. reflexivity.
Qed.

(** C6.  When another project [Y] is assigned and the answer to the
    overwrite prompt is not [y], [load_project X] returns having only
    written the prompt and read the answer: the controller is unchanged
    ([current_project] is still [Y]), the store is unchanged and the trace
    gains the prompt alone, so no service call (no query, no pull) is
    made. *)
Theorem load_declined (depth : nat) (X Y answer : string)
    (rest : list string) (s : St) :
  current_project (self s) = Some Y ->
  Y <> X ->
  stdin (world s) = answer :: rest ->
  answer <> "y" ->
  let s' := snd (load_project (S depth) X s) in
  fst (load_project (S depth) X s) = Ok tt /\
  self s' = self s /\
  current_project (self s') = Some Y /\
  svc (world s') = svc (world s) /\
  stdin (world s') = rest /\
  trace (world s')
  = (trace (world s) ++ [Prompt (overwrite_prompt Y)])%list.
Proof.
  intros E N I A s'. subst s'.
  rewrite (load_declined_run depth X Y answer rest s E N I A).
  cbn. rewrite E. repeat split; reflexivity.
Qed.

(** ** copy *)

(** [copy_full] starts with the call [copy_project(source, destination)],
    the destination being the one it was given. *)
Lemma copy_full_calls_service (source : string)
    (destination : option string) (s : St) :
  exists es,
    trace (world (snd (copy_full source destination s)))
    = (trace (world s)
       ++ Call (CopyProject source destination) :: es)%list.
Proof.
  unfold copy_full, service_copy_project, invoke, bind, emit.
  cbn [with_world world self log svc].
  destruct (svc_copy_project source destination (svc (world s)))
    as [[[d|]|e] v].
  - eexists [_]. cbn. now rewrite <- app_assoc.
  - exists []. reflexivity.
  - exists []. reflexivity.
Qed.

(** C7.  [copy] is [copy_full] with the destination as given when [long]
    is set or no destination is given, and otherwise [copy_full] with the
    directory part of the source joined with the destination; in both
    cases the service is called with that destination.  So
    [copy("a/b", "c", long=False)] is [copy_full("a/b", "a/c")]. *)
Theorem copy_modes (src : string) (dst : option string) (long : bool)
    (s : St) :
  (long = true \/ dst = None ->
     copy src dst long s = copy_full src dst s /\
     exists es,
       trace (world (snd (copy src dst long s)))
       = (trace (world s) ++ Call (CopyProject src dst) :: es)%list) /\
  (forall d : string,
     long = false -> dst = Some d ->
     let dst' :=
       Some (posixpath.join (fst (posixpath.split src)) d) in
     copy src dst long s = copy_full src dst' s /\
     exists es,
       trace (world (snd (copy src dst long s)))
       = (trace (world s) ++ Call (CopyProject src dst') :: es)%list) /\
  copy "a/b" (Some "c") false s = copy_full "a/b" (Some "a/c") s.
Proof.
  split; [ | split].
  - intros H.
    assert (E : copy src dst long s = copy_full src dst s).
    { unfold copy. destruct H as [-> | ->]; [reflexivity | ].
      now rewrite orb_true_r. }
    split; [exact E | ]. rewrite E. apply copy_full_calls_service.
  - intros d -> -> dst'.
    assert (E : copy src (Some d) false s = copy_full src dst' s).
    { unfold copy, copy_relative. cbn [orb is_none]. subst dst'.
      now destruct (posixpath.split src). }
    split; [exact E | ]. rewrite E. apply copy_full_calls_service.
  - reflexivity.
Qed.

(** ** display_status *)

Lemma display_status_run (s : St) :
  display_status s
  = (Ok tt,
     if confirms s (current_project (self s)) then
       with_world
         (logs [Print "-----";
                Call (IsProject (current_project (self s)));
                Print match current_project (self s) with
                      | None => "There is no current project assigned."
                      | Some name => "Current project: " ++ name
                      end;
                Print "-----"]) s
     else
       with_world
         (logs [Print "-----";
                Call (IsProject (current_project (self s)));
                Print "There is no current project assigned.";
                Print "-----"])
         (with_self (set_current_project None) s)).
Proof.
  unfold display_status, spacing, service_is_project, query.
  unfold confirms.
  destruct s as [[lib ws cp ct mt targets] w].
  cbn [self world current_project].
  destruct (svc_is_project cp (svc w)) eqn:K.
  - unfold bind, print, emit, get_self.
    cbn [with_world world self log svc current_project]. rewrite K.
    cbn [negb]. destruct cp; same_state.
  - unfold bind, print, emit, get_self.
    cbn [with_world world self log svc current_project]. rewrite K.
    cbn [negb]. same_state.
Qed.

(** C9.  [display_status] writes to the controller: when the service
    does not confirm [current_project] (in particular when it is [None]
    and the service does not confirm [None]), [current_project] is
    [None] afterwards and the report, made after that, is that no project
    is assigned; when the service confirms it, the controller is left as
    it was. *)
Theorem display_status_unassigns_unknown (s : St) :
  let s' := snd (display_status s) in
  fst (display_status s) = Ok tt /\
  (confirms s (current_project (self s)) = false ->
     current_project (self s') = None /\
     trace (world s')
     = (trace (world s)
        ++ [Print "-----";
            Call (IsProject (current_project (self s)));
            Print "There is no current project assigned.";
            Print "-----"])%list) /\
  (confirms s (current_project (self s)) = true ->
     self s' = self s /\
     current_project (self s') = current_project (self s)).
Proof.
  intros s'. subst s'. rewrite display_status_run. cbn [fst snd].
  split; [reflexivity | ].
  split; intros ->; split; reflexivity.
Qed.

(** ** The attributes other than [current_project] *)

Local Abbreviation keeps m := (@keeps_settings Time Svc _ m).

Lemma keeps_bind {A B : Type} (m : M Time Svc A)
    (f : A -> M Time Svc B) :
  keeps_settings m -> (forall a, keeps (f a)) ->
  keeps (bind m f).
Proof.
  intros Hm Hf s. unfold bind. specialize (Hm s).
  destruct (m s) as [[a|e] s1]; cbn [snd] in *.
  - now rewrite Hf.
  - exact Hm.
Qed.

Lemma keeps_ret {A : Type} (a : A) :
  keeps (ret a : M Time Svc A).
Proof. intros s; reflexivity. Qed.

Lemma keeps_raise {A : Type} (e : exn) :
  keeps (@raise Time Svc A e).
Proof. intros s; reflexivity. Qed.

Lemma keeps_get_self : keeps (@get_self Time Svc).
Proof. intros s; reflexivity. Qed.

Lemma keeps_emit (e : event) : keeps (@emit Time Svc e).
Proof. intros s; reflexivity. Qed.

Lemma keeps_print (line : string) : keeps (@print Time Svc line).
Proof. intros s; reflexivity. Qed.

Lemma keeps_assign_current_project (p : option string) :
  keeps (@assign_current_project Time Svc p).
Proof. intros s; reflexivity. Qed.

Lemma keeps_time_time : keeps (@time_time Time Svc).
Proof. intros s; reflexivity. Qed.

Lemma keeps_write_metadata_file (data : metadata Time) :
  keeps (@write_metadata_file Time Svc data).
Proof. intros s; reflexivity. Qed.

Lemma keeps_input (prompt : string) :
  keeps (@input Time Svc prompt).
Proof.
  intros s. unfold input, bind, emit. cbn [with_world world log stdin].
  now destruct (stdin (world s)).
Qed.

Lemma keeps_invoke {A : Type} (c : call) (op : Svc -> result A * Svc) :
  keeps (invoke c op : M Time Svc A).
Proof.
  intros s. unfold invoke, bind, emit. cbn [with_world world log svc].
  now destruct (op (svc (world s))).
Qed.

Lemma keeps_query {A : Type} (c : call) (q : Svc -> A) :
  keeps (query c q : M Time Svc A).
Proof. intros s; reflexivity. Qed.

Create HintDb keeps.
Hint Resolve keeps_ret keeps_raise keeps_get_self keeps_emit keeps_print
  keeps_assign_current_project keeps_time_time keeps_write_metadata_file
  keeps_input keeps_invoke keeps_query : keeps.

(** One step through a method body. *)
Ltac keeps_step :=
  match goal with
  | |- keeps_settings (bind _ _) => apply keeps_bind; [ | intro]
  | |- keeps_settings (match ?x with _ => _ end) => destruct x
  | |- keeps_settings (let (_, _) := ?x in _) => destruct x
  | |- keeps_settings _ => solve [auto with keeps]
  end.

Lemma keeps_unassign : keeps (@_unassign_project Time Svc).
Proof. unfold _unassign_project. repeat keeps_step. Qed.

Hint Resolve keeps_unassign : keeps.

Lemma keeps_assign (name : string) : keeps (_assign_project name).
Proof.
  unfold _assign_project, service_is_project. repeat keeps_step.
Qed.

Hint Resolve keeps_assign : keeps.

Lemma keeps_pull : keeps (@pull Time Svc service).
Proof. unfold pull, service_pull_project. repeat keeps_step. Qed.

Lemma keeps_push : keeps (@push Time Svc service).
Proof. unfold push, service_push_project. repeat keeps_step. Qed.

Lemma keeps_copy_full (source : string) (destination : option string) :
  keeps (copy_full source destination).
Proof. unfold copy_full, service_copy_project. repeat keeps_step. Qed.

Hint Resolve keeps_pull keeps_push keeps_copy_full : keeps.

Lemma keeps_copy (source : string) (destination : option string)
    (long : bool) :
  keeps (copy source destination long).
Proof. unfold copy, copy_relative. repeat keeps_step. Qed.

Lemma keeps_create (name : string) : keeps (create name).
Proof. unfold create, service_create_project. repeat keeps_step. Qed.

Lemma keeps_display_status :
  keeps (@display_status Time Svc service).
Proof.
  unfold display_status, spacing, service_is_project. repeat keeps_step.
Qed.

Lemma keeps_update_metadata :
  keeps (@update_metadata Time Svc).
Proof. unfold update_metadata. repeat keeps_step. Qed.

Lemma keeps_load_project (depth : nat) (name : string) :
  keeps (load_project depth name).
Proof.
  induction depth as [ | depth IH]; cbn [load_project].
  - auto with keeps.
  - repeat keeps_step.
Qed.

Lemma keeps_delete_projects (depth : nat) :
  forall names pattern safe,
    keeps (delete_projects depth names pattern safe).
Proof.
  induction depth as [ | depth IH]; intros names pattern safe;
    cbn [delete_projects].
  - auto with keeps.
  - unfold service_list_projects, service_delete_projects.
    repeat keeps_step.
Qed.

Lemma keeps_copy_relative (source : string)
    (destination : option string) :
  keeps (copy_relative source destination).
Proof. unfold copy_relative. repeat keeps_step. Qed.

Lemma keeps_for_each {A : Type} (xs : list A)
    (body : A -> M Time Svc unit) :
  (forall x, keeps (body x)) -> keeps (for_each xs body).
Proof.
  intros H. induction xs as [ | x rest IH]; cbn [for_each].
  - auto with keeps.
  - apply keeps_bind; [apply H | intros _; exact IH].
Qed.

Lemma keeps_list_projects (pattern : option string) :
  keeps (list_projects pattern).
Proof.
  unfold list_projects, spacing, service_list_projects.
  repeat keeps_step.
  apply keeps_for_each. intros project. auto with keeps.
Qed.

Lemma keeps_run (depth : nat) (a : action) : keeps (run depth a).
Proof.
  destruct a; cbn [run];
    auto using keeps_display_status, keeps_update_metadata, keeps_create,
      keeps_copy, keeps_copy_relative, keeps_list_projects,
      keeps_load_project, keeps_delete_projects with keeps.
Qed.

Lemma settings_create_time (c c' : controller Time) :
  settings c = settings c' -> create_time c = create_time c'.
Proof. intros E. apply (f_equal create_time) in E. exact E. Qed.

(** ** update_metadata *)

(** C8, as the code has it.  [update_metadata] always returns, and writes
    the six values: the five attributes other than [modify_time] as the
    controller holds them ([create_time] included) and, as [modify_time],
    the time read at the call.  It changes no attribute of the
    controller: the [modify_time] attribute keeps its old value, and so
    does [create_time].  Moreover no command changes [create_time]: no
    method of the controller other than [__init__] does, [list_projects]
    and [_unassign_project] included. *)
Theorem update_metadata_persists (s : St) :
  let now := clock (world s) (ticks (world s)) in
  let s' := snd (update_metadata s) in
  fst (update_metadata s) = Ok tt /\
  file (world s') = Some (persisted (self s) now) /\
  md_modify_time (persisted (self s) now) = Some now /\
  md_create_time (persisted (self s) now) = create_time (self s) /\
  self s' = self s /\
  (forall (depth : nat) (a : action),
      create_time (self (snd (run depth a s))) = create_time (self s)).
Proof.
  intros now s'. repeat split.
  intros depth a. apply settings_create_time, keeps_run.
Qed.

(** ** Initialization *)

(** With a metadata file the attributes come from the file, the path
    arguments are not looked at, and the outcome is that of the
    constructor of the service. *)
Lemma init_with_metadata_file (depth : nat)
    (lib ws : option string) (targets : option (list string))
    (w : env Time Svc) (data : metadata Time) :
  file w = Some data ->
  let r := LibrarianController depth lib ws targets w in
  fst r = fst (svc_init (md_library_path data) (md_workspace_path data)
                        (md_sync_targets data) (svc w)) /\
  self (snd r)
  = mkController (md_library_path data) (md_workspace_path data)
                 (md_current_project data) (md_create_time data)
                 (md_modify_time data) (md_sync_targets data).
Proof.
  intros F r.
  assert (E : r = invoke (NewService (md_library_path data)
                                     (md_workspace_path data)
                                     (md_sync_targets data))
                         (svc_init (md_library_path data)
                                   (md_workspace_path data)
                                   (md_sync_targets data))
                    (mkState
                       (mkController
                          (md_library_path data) (md_workspace_path data)
                          (md_current_project data) (md_create_time data)
                          (md_modify_time data) (md_sync_targets data))
                       (log (Print "Retrieved Librarian data.") w))).
  { subst r. unfold LibrarianController, __init__.
    unfold bind at 1. unfold metadata_file at 1. cbn [world].
    rewrite F. reflexivity. }
  rewrite E. unfold invoke, bind, emit.
  cbn [with_world self world log svc].
  destruct (svc_init _ _ _ (svc w)) as [r' v]. split; reflexivity.
Qed.


(** ** delete_projects *)

(** With names given, one level of [delete_projects] is enough: the
    service is called with those names and the caller's [safe], and the
    current project is unassigned if it is among them. *)
Lemma delete_named (depth : nat) (names : list string)
    (pattern : option string) (safe : bool) (s : St) :
  names <> [] ->
  delete_projects (S depth) names pattern safe s
  = (service_delete_projects names safe ;;
     c <- get_self ;;
     if contains (current_project c) names then _unassign_project
     else ret tt) s.
Proof. intros N. destruct names; [congruence | reflexivity]. Qed.

Lemma contains_none (names : list string) : contains None names = false.
Proof. induction names as [ | n names IH]; [reflexivity | exact IH]. Qed.

Lemma delete_named_run (depth : nat) (names : list string)
    (pattern : option string) (safe : bool) (s : St) (v : Svc) :
  names <> [] ->
  svc_delete_projects names safe (svc (world s)) = (Ok tt, v) ->
  let s' := snd (delete_projects (S depth) names pattern safe s) in
  fst (delete_projects (S depth) names pattern safe s) = Ok tt /\
  svc (world s') = v /\
  current_project (self s')
  = (if contains (current_project (self s)) names then None
     else current_project (self s)) /\
  exists es,
    trace (world s')
    = (trace (world s) ++ Call (DeleteProjects names safe) :: es)%list.
Proof.
  intros N D s'. subst s'. rewrite (delete_named _ _ _ _ _ N).
  unfold service_delete_projects, invoke, bind, emit, get_self.
  cbn [with_world world self log svc]. rewrite D.
  cbn [with_world world self set_svc svc].
  destruct (contains (current_project (self s)) names) eqn:C.
  - rewrite unassign_run. cbn [fst snd self with_world world].
    destruct (current_project (self s)) as [Y|] eqn:E.
    + split; [ | split; [ | split]]; try reflexivity.
      eexists. cbn. now rewrite <- app_assoc.
    + now rewrite contains_none in C.
  - cbn. split; [ | split; [ | split]]; try reflexivity.
    exists []. reflexivity.
Qed.

(** With no name given, the names are those the service lists for the
    pattern, and the self-call is made with them, no pattern, and [safe]
    set: the caller's [safe] is not used. *)
Lemma delete_resolves (depth : nat) (pattern : option string)
    (safe : bool) (s : St) :
  delete_projects (S depth) [] pattern safe s
  = delete_projects depth
      (svc_list_projects pattern (svc (world s))) None true
      (with_world (log (Call (ListProjects pattern))) s).
Proof. reflexivity. Qed.

(** When the service lists nothing, for the pattern and for no pattern,
    the self-calls never end: whatever the depth allowed, the outcome is
    [RecursionError]. *)
Lemma delete_never_returns (depth : nat) :
  forall (pattern : option string) (safe : bool) (s : St),
    svc_list_projects pattern (svc (world s)) = [] ->
    svc_list_projects None (svc (world s)) = [] ->
    fst (delete_projects depth [] pattern safe s) = Raise RecursionError.
Proof.
  induction depth as [ | depth IH]; intros pattern safe s P N.
  - reflexivity.
  - rewrite delete_resolves, P. apply IH; exact N.
Qed.

(** Two levels are enough whenever names are given or the listing is not
    empty. *)
Lemma delete_two_levels (depth : nat) (names : list string)
    (pattern : option string) (safe : bool) (s : St) :
  names <> [] \/ svc_list_projects pattern (svc (world s)) <> [] ->
  delete_projects (S (S depth)) names pattern safe s
  = delete_projects 2 names pattern safe s.
Proof.
  intros H. destruct names as [ | n names].
  - destruct H as [H | H]; [congruence | ].
    rewrite !delete_resolves.
    now rewrite !(delete_named _ _ _ _ _ H).
  - now rewrite !delete_named.
Qed.

(** ** load_project never needs more than two levels *)

Lemma bind_ext {A B : Type} (m : M Time Svc A)
    (f g : A -> M Time Svc B) (s : St) :
  (forall a s', f a s' = g a s') -> bind m f s = bind m g s.
Proof.
  intros H. unfold bind. destruct (m s) as [[a|e] s']; [apply H | ].
  reflexivity.
Qed.

Lemma load_other (depth : nat) (X Y : string) (s : St) :
  current_project (self s) = Some Y ->
  Y <> X ->
  load_project (S depth) X s
  = (confirmation <- input (overwrite_prompt Y) ;;
     if negb (String.eqb confirmation "y") then ret tt
     else assign_current_project None ;; load_project depth X) s.
Proof.
  intros E N. apply String.eqb_neq in N.
  cbn [load_project]. unfold bind at 1. unfold get_self at 1.
  rewrite E. cbn [is_none option_string_eqb orb str]. now rewrite N.
Qed.

Lemma load_two_levels (depth : nat) (X : string) (s : St) :
  load_project (S (S depth)) X s = load_project 2 X s.
Proof.
  destruct (current_project (self s)) as [Y|] eqn:E.
  - destruct (String.eqb Y X) eqn:YX.
    + apply String.eqb_eq in YX. subst Y.
      now rewrite !load_direct by (right; exact E).
    + apply String.eqb_neq in YX.
      rewrite !(load_other _ _ _ _ E YX).
      apply bind_ext. intros answer s1.
      destruct (negb (String.eqb answer "y")); [reflexivity | ].
      unfold bind, assign_current_project.
      now rewrite !load_direct by (left; reflexivity).
  - now rewrite !load_direct by (left; exact E).
Qed.

(** ** get_path *)

Lemma input_run (prompt : string) (s : St) :
  input prompt s
  = match stdin (world s) with
    | [] => (Raise EOFError, with_world (log (Prompt prompt)) s)
    | line :: rest =>
        (Ok line,
         with_world (fun w => set_stdin rest (log (Prompt prompt) w)) s)
    end.
Proof.
  unfold input, bind, emit. cbn [with_world world log stdin].
  now destruct (stdin (world s)).
Qed.

Lemma get_path_unfold (depth : nat) (role : string) :
  (get_path (S depth) role : M Time Svc string)
  = (line <- input ("Enter path to " ++ role
                    ++ " (enter to assign current directory): ") ;;
     let path := typed_path line in
     found <- os_path_exists path ;;
     if negb found then
       print ("Invalid path to " ++ role ++ ": " ++ path
              ++ ". Please try again.") ;;
       get_path depth role
     else
       path <- os_path_realpath path ;;
       confirm_loop (get_path depth role) role path 3 EmptyString).
Proof. reflexivity. Qed.

Lemma console_only_refl (s : St) : console_only s s.
Proof.
  split; [reflexivity | split].
  - exists []. reflexivity.
  - exists []. split; [now rewrite app_nil_r | reflexivity].
Qed.

Lemma console_only_trans (s1 s2 s3 : St) :
  console_only s1 s2 -> console_only s2 s3 -> console_only s1 s3.
Proof.
  intros [O1 [[u1 U1] [e1 [T1 C1]]]] [O2 [[u2 U2] [e2 [T2 C2]]]].
  split; [congruence | split].
  - exists (u1 ++ u2)%list. now rewrite U1, U2, app_assoc.
  - exists (e1 ++ e2)%list. split.
    + now rewrite T2, T1, app_assoc.
    + now rewrite forallb_app, C1, C2.
Qed.

Lemma console_only_log (e : event) (s : St) :
  is_call e = false -> console_only s (with_world (log e) s).
Proof.
  intros E. split; [reflexivity | split].
  - exists []. reflexivity.
  - exists [e]. split; [reflexivity | ]. cbn. now rewrite E.
Qed.

Lemma console_only_read (e : event) (line : string) (rest : list string)
    (s : St) :
  is_call e = false ->
  stdin (world s) = line :: rest ->
  console_only s (with_world (fun w => set_stdin rest (log e w)) s).
Proof.
  intros E I. split; [reflexivity | split].
  - exists [line]. now rewrite I.
  - exists [e]. split; [reflexivity | ]. cbn. now rewrite E.
Qed.

Lemma console_only_input (prompt : string) (s : St) :
  console_only s (snd (input prompt s)).
Proof.
  rewrite input_run. destruct (stdin (world s)) as [ | line rest] eqn:I.
  - now apply console_only_log.
  - now apply (console_only_read _ line).
Qed.

Lemma offstage_world (s s' : St) :
  offstage s' = offstage s ->
  self s' = self s /\
  svc (world s') = svc (world s) /\
  file (world s') = file (world s) /\
  ticks (world s') = ticks (world s) /\
  clock (world s') = clock (world s) /\
  path_exists (world s') = path_exists (world s) /\
  realpath (world s') = realpath (world s).
Proof.
  intros E.
  pose proof (f_equal self E) as H1.
  pose proof (f_equal (fun x => svc (world x)) E) as H2.
  pose proof (f_equal (fun x => file (world x)) E) as H3.
  pose proof (f_equal (fun x => ticks (world x)) E) as H4.
  pose proof (f_equal (fun x => clock (world x)) E) as H5.
  pose proof (f_equal (fun x => path_exists (world x)) E) as H6.
  pose proof (f_equal (fun x => realpath (world x)) E) as H7.
  cbn in *. repeat split; assumption.
Qed.

Lemma checked_path_back (s s' : St) (p : string) :
  console_only s s' -> checked_path s' p -> checked_path s p.
Proof.
  intros [O _] [q [F R]].
  destruct (offstage_world _ _ O) as [_ [_ [Hf [_ [_ [He Hr]]]]]].
  exists q. unfold path_found in *. rewrite Hf, He in F. rewrite Hr in R.
  split; assumption.
Qed.

(** What a computation that only uses the console, and returns checked
    paths only, looks like. *)
Local Abbreviation prompting m :=
  (forall (s : St) (r : result string) (s' : St),
      m s = (r, s') ->
      console_only s s' /\ forall p, r = Ok p -> checked_path s p).

Lemma confirm_loop_prompting (retry : M Time Svc string)
    (role path : string) (k : nat) :
  prompting retry ->
  forall (confirmation : string) (s : St) (r : result string) (s' : St),
    confirm_loop retry role path k confirmation s = (r, s') ->
    console_only s s' /\
    forall p, r = Ok p -> p = path \/ checked_path s p.
Proof.
  intros HR. induction k as [ | k IH]; intros confirmation s r s' E.
  - injection E as <- <-. split; [apply console_only_refl | discriminate].
  - cbn [confirm_loop] in E.
    destruct (negb (in_ynq confirmation)).
    2:{ injection E as <- <-.
        split; [apply console_only_refl | discriminate]. }
    unfold bind at 1 in E.
    pose proof (console_only_input
                  ("Confirm path to " ++ role ++ ": " ++ path
                   ++ " (y/n/q): ") s) as CI.
    destruct (input _ s) as [[answer | e] s1]; cbn [snd] in CI.
    2:{ injection E as <- <-. split; [exact CI | discriminate]. }
    destruct (String.eqb answer "y").
    { injection E as <- <-. split; [exact CI | ].
      intros p [= <-]. now left. }
    destruct (String.eqb answer "n").
    { destruct (HR s1 r s' E) as [C V]. split.
      - exact (console_only_trans _ _ _ CI C).
      - intros p Ep. right.
        exact (checked_path_back _ _ _ CI (V p Ep)). }
    destruct (String.eqb answer "q").
    { injection E as <- <-. split; [exact CI | discriminate]. }
    unfold bind at 1 in E. unfold print at 1 in E. unfold emit at 1 in E.
    assert (CP : console_only s
                   (with_world
                      (log (Print ("Invalid input option: " ++ answer)))
                      s1)).
    { apply (console_only_trans _ _ _ CI). now apply console_only_log. }
    destruct (IH answer _ r s' E) as [C V].
    split.
    + apply (console_only_trans _ _ _ CP C).
    + intros p Ep. destruct (V p Ep) as [-> | W]; [now left | right].
      exact (checked_path_back _ _ _ CP W).
Qed.

Lemma get_path_prompting (depth : nat) (role : string) :
  prompting (get_path depth role).
Proof.
  induction depth as [ | depth IH]; intros s r s' E.
  - injection E as <- <-. split; [apply console_only_refl | discriminate].
  - rewrite get_path_unfold in E. unfold bind at 1 in E.
    pose proof (console_only_input
                  ("Enter path to " ++ role
                   ++ " (enter to assign current directory): ") s) as CI.
    destruct (input _ s) as [[line | e] s1]; cbn [snd] in CI.
    2:{ injection E as <- <-. split; [exact CI | discriminate]. }
    cbn zeta in E. unfold bind at 1 in E.
    unfold os_path_exists at 1 in E.
    fold (path_found (world s1) (typed_path line)) in E.
    destruct (path_found (world s1) (typed_path line)) eqn:F;
      cbn [negb] in E.
    + unfold bind at 1 in E. unfold os_path_realpath at 1 in E.
      destruct (confirm_loop_prompting _ _ _ _ IH _ _ _ _ E) as [C V].
      split.
      * exact (console_only_trans _ _ _ CI C).
      * intros p Ep. apply (checked_path_back _ _ _ CI).
        destruct (V p Ep) as [-> | W]; [ | exact W].
        exists (typed_path line). split; [exact F | reflexivity].
    + unfold bind at 1 in E. unfold print at 1 in E.
      unfold emit at 1 in E.
      assert (CP : console_only s
                     (with_world
                        (log (Print ("Invalid path to " ++ role ++ ": "
                                     ++ typed_path line
                                     ++ ". Please try again.")))
                        s1)).
      { apply (console_only_trans _ _ _ CI). now apply console_only_log. }
      destruct (IH _ r s' E) as [C V]. split.
      * exact (console_only_trans _ _ _ CP C).
      * intros p Ep. exact (checked_path_back _ _ _ CP (V p Ep)).
Qed.

Lemma in_ynq_false (c : string) :
  in_ynq c = false ->
  String.eqb c "y" = false /\ String.eqb c "n" = false /\
  String.eqb c "q" = false.
Proof.
  unfold in_ynq. cbn [existsb]. intros H.
  apply orb_false_elim in H. destruct H as [Y H].
  apply orb_false_elim in H. destruct H as [N H].
  apply orb_false_elim in H. destruct H as [Q _].
  repeat split; assumption.
Qed.

(** One round of the confirmation loop on an answer that is none of
    [y], [n], [q]. *)
Lemma confirm_loop_invalid (retry : M Time Svc string)
    (role path : string) (k : nat) (c0 c : string) (rest : list string)
    (s : St) :
  in_ynq c0 = false ->
  in_ynq c = false ->
  stdin (world s) = c :: rest ->
  confirm_loop retry role path (S k) c0 s
  = confirm_loop retry role path k c
      (with_world
         (fun w =>
            log (Print ("Invalid input option: " ++ c))
                (set_stdin rest
                   (log (Prompt ("Confirm path to " ++ role ++ ": "
                                 ++ path ++ " (y/n/q): ")) w))) s).
Proof.
  intros C0 C I. destruct (in_ynq_false _ C) as [Y [N Q]].
  cbn [confirm_loop]. rewrite C0. cbn [negb].
  unfold bind at 1. rewrite input_run, I, Y, N, Q. reflexivity.
Qed.



(** X1.  Whatever is typed, a path returned by [get_path] is the canonical
    form ([os.path.realpath]) of a path that exists. *)
Theorem get_path_returns_checked_path (depth : nat) (role : string)
    (s s' : St) (p : string) :
  get_path depth role s = (Ok p, s') ->
  exists q, path_found (world s) q = true /\ p = realpath (world s) q.
Proof.
  intros E. destruct (get_path_prompting depth role s _ _ E) as [_ V].
  exact (V p eq_refl).
Qed.

(** X2.  [get_path] acts on the console alone, whether it returns or
    raises: the controller, the store of the service, the metadata file and
    the clock are as before, the pending input has only lost lines at its
    front, and the trace has only gained prompts and printed lines (no
    call to the service). *)
Theorem get_path_console_only (depth : nat) (role : string) (s : St) :
  let s' := snd (get_path depth role s) in
  self s' = self s /\
  svc (world s') = svc (world s) /\
  file (world s') = file (world s) /\
  ticks (world s') = ticks (world s) /\
  (exists used, stdin (world s) = (used ++ stdin (world s'))%list) /\
  (exists es, trace (world s') = (trace (world s) ++ es)%list /\
              forallb (fun e => negb (is_call e)) es = true).
Proof.
  intros s'. subst s'.
  destruct (get_path depth role s) as [r s'] eqn:E. cbn [snd].
  destruct (get_path_prompting depth role s _ _ E) as [[O [U T]] _].
  destruct (offstage_world _ _ O) as [H1 [H2 [H3 [H4 _]]]].
  repeat split; assumption.
Qed.


(** X4.  After an existing path, three confirmations in a row that are
    none of [y], [n], [q] end [get_path] with [KeyboardInterrupt]; the
    four lines have been read and no further. *)
Theorem get_path_three_invalid (depth : nat) (role line c1 c2 c3 : string)
    (rest : list string) (s : St) :
  stdin (world s) = line :: c1 :: c2 :: c3 :: rest ->
  path_found (world s) (typed_path line) = true ->
  in_ynq c1 = false -> in_ynq c2 = false -> in_ynq c3 = false ->
  fst (get_path (S depth) role s)
  = Raise (KeyboardInterrupt
             "Quitting process due to multiple invalid arguments.") /\
  stdin (world (snd (get_path (S depth) role s))) = rest /\
  self (snd (get_path (S depth) role s)) = self s.
Proof.
  intros I F C1 C2 C3.
  assert (E : exists s',
             get_path (S depth) role s
             = (Raise (KeyboardInterrupt
                  "Quitting process due to multiple invalid arguments."),
                s') /\
             stdin (world s') = rest /\ self s' = self s).
  { eexists. split.
    - rewrite get_path_unfold. unfold bind at 1.
      rewrite input_run, I. cbn zeta. unfold bind at 1.
      unfold os_path_exists at 1.
      cbn [with_world world set_stdin log file path_exists].
      unfold path_found in F. rewrite F. cbn [negb].
      unfold bind at 1. unfold os_path_realpath at 1.
      rewrite (confirm_loop_invalid _ _ _ 2 EmptyString c1
                 (c2 :: c3 :: rest)) by (reflexivity || assumption).
      rewrite (confirm_loop_invalid _ _ _ 1 c1 c2 (c3 :: rest))
        by (reflexivity || assumption).
      rewrite (confirm_loop_invalid _ _ _ 0 c2 c3 rest)
        by (reflexivity || assumption).
      reflexivity.
    - split; reflexivity. }
  destruct E as [s' [E [R C]]]. rewrite E. repeat split; assumption.
Qed.

(** X5.  An existing path confirmed with [y] is returned in canonical
    form, the empty line standing for the current directory [.]; two
    lines are read. *)
Theorem get_path_accepts (depth : nat) (role line : string)
    (rest : list string) (s : St) :
  stdin (world s) = line :: "y" :: rest ->
  path_found (world s) (typed_path line) = true ->
  fst (get_path (S depth) role s)
  = Ok (realpath (world s) (if String.eqb line EmptyString then "."
                            else line)) /\
  stdin (world (snd (get_path (S depth) role s))) = rest.
Proof.
  intros I F.
  assert (E : get_path (S depth) role s
              = (Ok (realpath (world s) (typed_path line)),
                 with_world
                   (fun w =>
                      set_stdin rest
                        (log (Prompt ("Confirm path to " ++ role ++ ": "
                                      ++ realpath w (typed_path line)
                                      ++ " (y/n/q): "))
                           (log (Prompt ("Enter path to " ++ role
                                   ++ " (enter to assign current directory): "))
                                w))) s)).
  { rewrite get_path_unfold. unfold bind at 1.
    rewrite input_run, I. cbn zeta. unfold bind at 1.
    unfold os_path_exists at 1.
    cbn [with_world world set_stdin log file path_exists].
    unfold path_found in F. rewrite F. cbn [negb].
    unfold bind at 1. unfold os_path_realpath at 1.
    cbn [confirm_loop in_ynq existsb String.eqb Ascii.eqb Bool.eqb orb negb].
    unfold bind at 1. rewrite input_run.
    cbn [with_world world set_stdin log stdin realpath]. reflexivity. }
  rewrite E. split; reflexivity.
Qed.

(** ** More on initialization *)

Lemma init_without_file (depth : nat) (lib ws : option string)
    (targets : option (list string)) (w : env Time Svc) :
  file w = None ->
  LibrarianController depth lib ws targets w
  = ((library_path <- or_get_path depth "library" lib ;;
      workspace_path <- or_get_path depth "workspace" ws ;;
      if String.eqb library_path workspace_path
      then raise FolderCollisionException
      else
        print "Initialized Librarian data." ;;
        let sync_targets :=
          match targets with
          | None | Some [] => ["UserData"]
          | Some targets => targets
          end in
        now <- time_time ;;
        put_self (mkController (Some library_path) (Some workspace_path)
                               None (Some now) (Some now)
                               (Some sync_targets))) ;;
     c <- get_self ;;
     let '(mkController lib ws _ _ _ targets) := c in
     invoke (NewService lib ws targets) (svc_init lib ws targets))
      (mkState blank w).
Proof.
  intros F. unfold LibrarianController, __init__.
  unfold bind at 1. unfold metadata_file at 1. cbn [world].
  now rewrite F.
Qed.

(** X6.  With no metadata file and two different paths supplied, the
    controller is set up with those paths, no current project, both
    timestamps equal to the time read once from the clock, and the sync
    targets supplied, or [UserData] alone when none or an empty list was
    supplied; the outcome is that of the constructor of the service,
    called with these paths and targets. *)
Theorem init_fresh (depth : nat) (lib ws : string)
    (targets : option (list string)) (w : env Time Svc) :
  file w = None ->
  lib <> ws ->
  let targets' := match targets with
                  | None | Some [] => ["UserData"]
                  | Some l => l
                  end in
  let r := LibrarianController depth (Some lib) (Some ws) targets w in
  self (snd r)
  = mkController (Some lib) (Some ws) None
                 (Some (clock w (ticks w))) (Some (clock w (ticks w)))
                 (Some targets') /\
  fst r = fst (svc_init (Some lib) (Some ws) (Some targets') (svc w)) /\
  svc (world (snd r))
  = snd (svc_init (Some lib) (Some ws) (Some targets') (svc w)) /\
  ticks (world (snd r)) = S (ticks w) /\
  file (world (snd r)) = None.
Proof.
  intros F N targets' r. subst r.
  rewrite (init_without_file _ _ _ _ _ F).
  apply String.eqb_neq in N.
  unfold or_get_path, bind, ret. rewrite N.
  unfold print, emit, time_time, put_self, get_self, invoke, bind, emit.
  cbn [with_world with_self world self log tick svc ticks clock file].
  fold targets'.
  destruct (svc_init (Some lib) (Some ws) (Some targets') (svc w))
    as [r v].
  cbn. rewrite F. repeat split.
Qed.

(** X7.  With no metadata file and no library path supplied, the answer
    [q] at the confirmation of the path typed ends the construction with
    [KeyboardInterrupt]: no attribute has been set, the service has not
    been constructed or called (the trace has gained two prompts and no
    call), and two lines have been read. *)
Theorem init_quit (depth : nat) (ws : option string)
    (targets : option (list string)) (line : string) (rest : list string)
    (w : env Time Svc) :
  file w = None ->
  stdin w = line :: "q" :: rest ->
  path_found w (typed_path line) = true ->
  let r := LibrarianController (S depth) None ws targets w in
  fst r = Raise (KeyboardInterrupt "Quitting process.") /\
  self (snd r) = blank /\
  svc (world (snd r)) = svc w /\
  stdin (world (snd r)) = rest /\
  exists es,
    trace (world (snd r)) = (trace w ++ es)%list /\
    forallb (fun e => negb (is_call e)) es = true.
Proof.
  intros F I P r.
  assert (E : exists s',
             get_path (S depth) "library" (mkState blank w)
             = (Raise (KeyboardInterrupt "Quitting process."), s') /\
             self s' = blank /\ svc (world s') = svc w /\
             stdin (world s') = rest /\
             exists e1 e2, trace (world s')
                           = (trace w ++ [Prompt e1; Prompt e2])%list).
  { eexists. split.
    - rewrite get_path_unfold. unfold bind at 1.
      rewrite input_run. cbn [world]. rewrite I. cbn zeta.
      unfold bind at 1. unfold os_path_exists at 1.
      cbn [with_world world set_stdin log file path_exists].
      unfold path_found in P. rewrite P. cbn [negb].
      unfold bind at 1. unfold os_path_realpath at 1.
      cbn [confirm_loop in_ynq existsb String.eqb Ascii.eqb Bool.eqb
           orb negb].
      unfold bind at 1. rewrite input_run.
      cbn [with_world world set_stdin log stdin realpath]. reflexivity.
    - cbn. repeat split. do 2 eexists. now rewrite <- app_assoc. }
  destruct E as [s' [E [B [V [R [e1 [e2 T]]]]]]].
  assert (ER : r = (Raise (KeyboardInterrupt "Quitting process."), s')).
  { subst r. rewrite (init_without_file _ _ _ _ _ F).
    unfold or_get_path at 1.
    apply bind_raise, bind_raise. exact E. }
  rewrite ER. cbn [fst snd].
  split; [reflexivity | split; [exact B | split; [exact V | ]]].
  split; [exact R | ].
  exists [Prompt e1; Prompt e2]. split; [exact T | reflexivity].
Qed.

(** X8.  Persist, then construct again: a controller constructed on the
    world that [update_metadata] left has the attributes of the one that
    persisted, except [modify_time], which is the time of the persist;
    the path arguments of the construction play no part. *)
Theorem persist_then_rehydrate (depth : nat) (lib ws : option string)
    (targets : option (list string)) (s : St) :
  let now := clock (world s) (ticks (world s)) in
  let w1 := world (snd (update_metadata s)) in
  self (snd (LibrarianController depth lib ws targets w1))
  = mkController (library_path (self s)) (workspace_path (self s))
                 (current_project (self s)) (create_time (self s))
                 (Some now) (sync_targets (self s)).
Proof.
  intros now w1.
  assert (F : file w1 = Some (persisted (self s) now)) by reflexivity.
  destruct (init_with_metadata_file depth lib ws targets w1 _ F)
    as [_ E].
  exact E.
Qed.

(** ** create *)

Lemma invoke_run {A : Type} (c : call) (op : Svc -> result A * Svc)
    (s : St) :
  invoke c op s
  = (fst (op (svc (world s))),
     with_world (set_svc (snd (op (svc (world s)))))
                (with_world (log (Call c)) s)).
Proof.
  unfold invoke, bind, emit. cbn [with_world world log svc].
  now destruct (op (svc (world s))).
Qed.

(** X9.  [create name] ends with [name] as current project exactly when
    it returns; when it raises, because the service failed to create the
    project or does not know it afterwards, [current_project] is as it
    was. *)
Theorem create_outcome (name : string) (s : St) :
  let r := create name s in
  (fst r = Ok tt /\ current_project (self (snd r)) = Some name) \/
  ((exists e, fst r = Raise e) /\
   current_project (self (snd r)) = current_project (self s)).
Proof.
  intros r. subst r. destruct (create name s) as [r s'] eqn:E.
  cbn [fst snd]. unfold create, service_create_project in E.
  unfold bind at 1 in E. rewrite invoke_run in E.
  destruct (svc_create_project name (svc (world s))) as [[[] | e] v];
    cbn [fst snd] in E.
  - match type of E with
    | _assign_project name ?x = _ =>
        set (s1 := x) in E; change (assign name s1 = (r, s')) in E
    end.
    destruct (confirms s1 (Some name)) eqn:K.
    + rewrite (assign_known _ _ K) in E. injection E as <- <-.
      left. split; reflexivity.
    + rewrite (assign_unknown _ _ K) in E. injection E as <- <-.
      right. split; [now eexists | reflexivity].
  - injection E as <- <-. right. split; [now eexists | reflexivity].
Qed.

(** ** More on copy *)

Lemma copy_full_outcome (source : string) (destination : option string)
    (s : St) :
  fst (copy_full source destination s)
  = match fst (svc_copy_project source destination (svc (world s))) with
    | Ok _ => Ok tt
    | Raise e => Raise e
    end /\
  self (snd (copy_full source destination s)) = self s /\
  svc (world (snd (copy_full source destination s)))
  = snd (svc_copy_project source destination (svc (world s))).
Proof.
  destruct (copy_full source destination s) as [r s'] eqn:E.
  cbn [fst snd]. unfold copy_full, service_copy_project in E.
  unfold bind at 1 in E. rewrite invoke_run in E.
  destruct (svc_copy_project source destination (svc (world s)))
    as [[[d | ] | e] v]; cbn [fst snd] in E;
    injection E as <- <-; repeat split.
Qed.

(** X10.  [copy] makes one call to the service, with the destination of
    its mode, and its outcome is that call's: it returns when the service
    returns (a destination or none), raises what the service raises, and
    never raises of its own; the store is what the service left, and the
    controller, so the current project, is not changed. *)
Theorem copy_outcome (source : string) (destination : option string)
    (long : bool) (s : St) :
  let dst := copy_destination source destination long in
  let r := copy source destination long s in
  fst r = match fst (svc_copy_project source dst (svc (world s))) with
          | Ok _ => Ok tt
          | Raise e => Raise e
          end /\
  self (snd r) = self s /\
  svc (world (snd r)) = snd (svc_copy_project source dst (svc (world s))).
Proof.
  intros dst r. subst dst r. unfold copy, copy_relative, copy_destination.
  destruct long; cbn [orb].
  - apply copy_full_outcome.
  - destruct destination as [d | ]; cbn [is_none option_map].
    + destruct (posixpath.split source) as [directory tail]. cbn [fst].
      apply copy_full_outcome.
    + apply copy_full_outcome.
Qed.

(** ** push and pull *)

(** X11.  [pull] and [push] never change the controller.  With no current
    project they return without calling the service; with current project
    [n] their outcome and the store they leave are those of the service's
    pull, or push, of [n]. *)
Theorem pull_push_outcome (s : St) :
  self (snd (pull s)) = self s /\
  self (snd (push s)) = self s /\
  (current_project (self s) = None ->
     pull s
     = (Ok tt,
        with_world (log (Print "No assigned project to pull from.")) s) /\
     push s
     = (Ok tt,
        with_world (log (Print "No assigned project to push to.")) s)) /\
  (forall n, current_project (self s) = Some n ->
     fst (pull s) = fst (svc_pull_project n (svc (world s))) /\
     svc (world (snd (pull s))) = snd (svc_pull_project n (svc (world s))) /\
     fst (push s) = fst (svc_push_project n (svc (world s))) /\
     svc (world (snd (push s)))
     = snd (svc_push_project n (svc (world s)))).
Proof.
  unfold pull, push, service_pull_project, service_push_project.
  unfold bind, get_self.
  destruct (current_project (self s)) as [m | ] eqn:E.
  - rewrite !invoke_run. cbn [fst snd with_world self world set_svc svc].
    split; [reflexivity | split; [reflexivity | split]].
    + discriminate.
    + intros n [= <-]. repeat split.
  - split; [reflexivity | split; [reflexivity | split]].
    + intros _. split; reflexivity.
    + discriminate.
Qed.

(** ** load over another project *)

(** X12.  When another project [Y] is assigned and the answer to the
    overwrite prompt is [y], [load_project X] first empties the slot and
    then assigns and pulls [X]: if the service knows [X], [X] is the
    current project and the outcome is that of the pull; if it does not,
    [InvalidProjectException] is raised with no current project left ([Y]
    is not restored). *)
Theorem load_overwrite (depth : nat) (X Y : string) (rest : list string)
    (s : St) :
  current_project (self s) = Some Y ->
  Y <> X ->
  stdin (world s) = "y" :: rest ->
  let r := load_project (S (S depth)) X s in
  (confirms s (Some X) = true ->
     current_project (self (snd r)) = Some X /\
     fst r = fst (svc_pull_project X (svc (world s)))) /\
  (confirms s (Some X) = false ->
     fst r = Raise (InvalidProjectException X) /\
     current_project (self (snd r)) = None).
Proof.
  intros E N I r.
  set (s1 := with_self (set_current_project None)
               (with_world
                  (fun w => set_stdin rest
                              (log (Prompt (overwrite_prompt Y)) w)) s)).
  assert (L : r = (assign X ;; pull) s1).
  { subst r. rewrite (load_other _ _ _ _ E N).
    unfold bind at 1. rewrite input_run, I.
    cbn [String.eqb Ascii.eqb Bool.eqb negb].
    unfold bind at 1. unfold assign_current_project at 1.
    now rewrite load_direct by (left; reflexivity). }
  assert (C : confirms s1 (Some X) = confirms s (Some X)) by reflexivity.
  rewrite L. split; intros K; rewrite <- C in K.
  - rewrite (bind_ok _ _ _ _ _ (assign_known _ _ K)).
    rewrite (pull_assigned X) by reflexivity.
    unfold service_pull_project. rewrite invoke_run. split; reflexivity.
  - rewrite (bind_raise _ _ _ _ _ (assign_unknown _ _ K)).
    split; reflexivity.
Qed.

(** ** More on delete_projects *)

(** X13.  With names given, [delete_projects] makes one call to the
    service, with those names and the caller's [safe].  If the call
    returns, the current project is unassigned when it is among the names
    and kept otherwise; if the call raises, the exception reaches the
    caller and the current project is kept. *)
Theorem delete_named_outcome (depth : nat) (names : list string)
    (pattern : option string) (safe : bool) (s : St) :
  names <> [] ->
  let r := delete_projects (S depth) names pattern safe s in
  let called := svc_delete_projects names safe (svc (world s)) in
  fst r = fst called /\
  svc (world (snd r)) = snd called /\
  current_project (self (snd r))
  = match fst called with
    | Ok _ => if contains (current_project (self s)) names then None
              else current_project (self s)
    | Raise _ => current_project (self s)
    end.
Proof.
  intros N r called. subst r called.
  destruct (delete_projects (S depth) names pattern safe s)
    as [r s'] eqn:E.
  cbn [fst snd]. rewrite (delete_named _ _ _ _ _ N) in E.
  unfold service_delete_projects in E. unfold bind at 1 in E.
  rewrite invoke_run in E.
  destruct (svc_delete_projects names safe (svc (world s)))
    as [[[] | e] v]; cbn [fst snd] in E |- *.
  - unfold bind at 1 in E. unfold get_self at 1 in E.
    cbn [self with_world] in E.
    destruct (contains (current_project (self s)) names) eqn:C.
    + rewrite unassign_run in E. injection E as <- <-.
      cbn [self with_world world].
      destruct (current_project (self s)) as [Y | ] eqn:EY.
      * repeat split.
      * now rewrite contains_none in C.
    + injection E as <- <-. repeat split.
  - injection E as <- <-. repeat split.
Qed.

(** ** More on display_status *)

(** X14.  After [display_status] the current project is none or one the
    service confirms, and a second [display_status] right after changes
    nothing in the controller. *)
Theorem display_status_settles (s : St) :
  let s1 := snd (display_status s) in
  (current_project (self s1) = None \/
   confirms s1 (current_project (self s1)) = true) /\
  self (snd (display_status s1)) = self s1.
Proof.
  intros s1.
  assert (H : (current_project (self s1) = None \/
               confirms s1 (current_project (self s1)) = true)).
  { subst s1. rewrite display_status_run. cbn [snd].
    destruct (confirms s (current_project (self s))) eqn:K.
    - right. exact K.
    - left. reflexivity. }
  split; [exact H | ].
  rewrite (display_status_run s1). cbn [snd].
  destruct (confirms s1 (current_project (self s1))) eqn:K.
  - reflexivity.
  - destruct H as [H | H]; [ | congruence].
    destruct s1 as [[lib ws cp ct mt tg] w]. cbn in H |- *. now subst cp.
Qed.

(** ** Sequences of commands *)

(** X15.  Whatever commands are run since the construction (any methods
    of the controller other than [__init__]), in whatever order, and
    whether they return or raise, the library path, the
    workspace path, the two timestamps and the sync targets of the
    controller stay as they were: only [current_project] can change. *)
Theorem commands_keep_settings (depth : nat) (actions : list action)
    (s : St) :
  let c := self (run_all depth actions s) in
  library_path c = library_path (self s) /\
  workspace_path c = workspace_path (self s) /\
  create_time c = create_time (self s) /\
  modify_time c = modify_time (self s) /\
  sync_targets c = sync_targets (self s).
Proof.
  intros c.
  assert (E : settings c = settings (self s)).
  { subst c. revert s.
    induction actions as [ | a rest IH]; intros s; [reflexivity | ].
    cbn [run_all]. rewrite IH. apply keeps_run. }
  pose proof (f_equal library_path E) as H1.
  pose proof (f_equal workspace_path E) as H2.
  pose proof (f_equal create_time E) as H3.
  pose proof (f_equal modify_time E) as H4.
  pose proof (f_equal sync_targets E) as H5.
  repeat split; assumption.
Qed.

(** X16.  After any sequence of [assign] and [_unassign_project] calls,
    the current project is none or the name most recently assigned with
    success and not unassigned since: an assignment of a name the service
    knows fills the slot, one of a name it does not know leaves it, an
    unassignment empties it. *)
Theorem slot_follows_last_assignment (ops : list slot_op) (s : St) :
  current_project (self (run_slot_ops ops s))
  = slot_after (fun name => confirms s (Some name)) ops
               (current_project (self s)).
Proof.
  revert s. induction ops as [ | op rest IH]; intros s; [reflexivity | ].
  cbn [run_slot_ops]. rewrite IH. destruct op as [name | ].
  - cbn [run_slot_op slot_after].
    destruct (confirms s (Some name)) eqn:K.
    + rewrite (assign_known _ _ K). reflexivity.
    + rewrite (assign_unknown _ _ K). reflexivity.
  - cbn [run_slot_op slot_after]. rewrite unassign_run. cbn [snd].
    destruct (current_project (self s)) eqn:E; [reflexivity | ].
    cbn [self with_world]. rewrite E. reflexivity.
Qed.

(** ** list_projects *)

Lemma insert_sorted_perm (name : string) (names : list string) :
  Permutation (name :: names) (insert_sorted name names).
Proof.
  induction names as [ | n rest IH]; cbn [insert_sorted].
  - apply Permutation_refl.
  - destruct (String.leb name n).
    + apply Permutation_refl.
    + apply perm_trans with (n :: name :: rest).
      * apply perm_swap.
      * now apply perm_skip.
Qed.

Lemma list_sort_perm (names : list string) :
  Permutation names (list_sort names).
Proof.
  induction names as [ | n rest IH]; cbn.
  - apply perm_nil.
  - apply perm_trans with (n :: list_sort rest).
    + now apply perm_skip.
    + apply insert_sorted_perm.
Qed.

Lemma insert_sorted_hd (name n : string) (names : list string) :
  name_le n name -> HdRel name_le n names ->
  HdRel name_le n (insert_sorted name names).
Proof.
  intros L H. destruct names as [ | m rest]; cbn [insert_sorted].
  - now constructor.
  - destruct (String.leb name m).
    + now constructor.
    + constructor. now inversion H.
Qed.

Lemma insert_sorted_sorted (name : string) (names : list string) :
  Sorted name_le names -> Sorted name_le (insert_sorted name names).
Proof.
  induction names as [ | n rest IH]; intros S; cbn [insert_sorted].
  - repeat constructor.
  - inversion S as [ | ? ? Srest Hd]; subst.
    destruct (String.leb name n) eqn:L.
    + constructor; [exact S | ]. constructor. exact L.
    + constructor; [now apply IH | ].
      apply insert_sorted_hd; [ | exact Hd].
      destruct (String.leb_total name n) as [T | T]; [congruence | exact T].
Qed.

Lemma list_sort_sorted (names : list string) :
  Sorted name_le (list_sort names).
Proof.
  induction names as [ | n rest IH]; cbn.
  - constructor.
  - now apply insert_sorted_sorted.
Qed.

Lemma logs_nil (s : St) : mkState (self s) (logs [] (world s)) = s.
Proof.
  destruct s as [c [v i t k n f e r]]. unfold logs. cbn.
  now rewrite app_nil_r.
Qed.

Lemma for_each_print (f : string -> string) (names : list string) :
  forall s : St,
    for_each names (fun name => print (f name)) s
    = (Ok tt,
       mkState (self s)
               (logs (map (fun name => Print (f name)) names) (world s))).
Proof.
  induction names as [ | n rest IH]; intros s.
  - cbn [for_each map]. unfold ret. now rewrite logs_nil.
  - cbn [for_each map]. unfold bind at 1. unfold print at 1.
    unfold emit at 1. rewrite IH. same_state.
Qed.

(** X17.  [list_projects] asks the service once for the names matching
    the pattern and prints, between two rules, one line per name, in
    ascending order and each name as often as the service listed it, or a
    single line saying that none was found.  It always returns and
    changes neither the controller nor the store. *)
Theorem list_projects_prints_sorted (pattern : option string) (s : St) :
  let listed := svc_list_projects pattern (svc (world s)) in
  let names := list_sort listed in
  list_projects pattern s
  = (Ok tt,
     with_world
       (logs ([Print "-----"; Call (ListProjects pattern)]
              ++ listing_lines names ++ [Print "-----"])) s) /\
  Permutation listed names /\
  Sorted name_le names.
Proof.
  intros listed names.
  split; [ | split; [apply list_sort_perm | apply list_sort_sorted]].
  unfold list_projects, spacing, service_list_projects, query.
  unfold bind at 1. unfold print at 1. unfold emit at 1.
  unfold bind at 1. unfold bind at 1. unfold bind at 1.
  unfold emit at 1. cbn [with_world world self log svc].
  fold listed. fold names. unfold listing_lines.
  destruct names as [ | n rest] eqn:E.
  - same_state.
  - rewrite for_each_print. same_state.
Qed.

(** ** Relative copies name siblings *)

Lemma sep_free_rpartition (t : string) :
  sep_free t = true -> posixpath.rpartition t = None.
Proof.
  induction t as [ | c t IH]; [reflexivity | ]. cbn.
  intros H. apply andb_true_iff in H. destruct H as [C T].
  rewrite (IH T). apply negb_true_iff in C. now rewrite C.
Qed.

Lemma is_sep_eq (c : ascii) :
  posixpath.is_sep c = true -> c = posixpath.sep.
Proof. apply Ascii.eqb_eq. Qed.

Lemma rpartition_cons (c : ascii) (r : string) :
  posixpath.rpartition (String c r)
  = match posixpath.rpartition r with
    | Some (h, t) => Some (String c h, t)
    | None => if posixpath.is_sep c then Some (String c EmptyString, r)
              else None
    end.
Proof. reflexivity. Qed.

Lemma rpartition_after_sep (h t : string) :
  sep_free t = true ->
  posixpath.rpartition (h ++ String posixpath.sep t)
  = Some (h ++ String posixpath.sep EmptyString, t).
Proof.
  intros T. induction h as [ | c h IH].
  - cbn. now rewrite (sep_free_rpartition _ T).
  - cbn [String.append posixpath.rpartition]. now rewrite IH.
Qed.

Lemma rpartition_after_trailing_sep (d t : string) :
  posixpath.endswith_sep d = true ->
  sep_free t = true ->
  posixpath.rpartition (d ++ t) = Some (d, t).
Proof.
  intros D T. induction d as [ | c d IH]; [discriminate | ].
  destruct d as [ | c' d'].
  - cbn in D. apply is_sep_eq in D. subst c.
    cbn. now rewrite (sep_free_rpartition _ T).
  - change (String c (String c' d') ++ t)
      with (String c (String c' d' ++ t)).
    rewrite rpartition_cons. now rewrite (IH D).
Qed.

Lemma rstrip_sep_cons (c : ascii) (r : string) :
  posixpath.rstrip_sep (String c r)
  = if posixpath.is_sep c
       && String.eqb (posixpath.rstrip_sep r) EmptyString
    then EmptyString
    else String c (posixpath.rstrip_sep r).
Proof. reflexivity. Qed.

Lemma all_sep_cons (c : ascii) (r : string) :
  posixpath.all_sep (String c r)
  = posixpath.is_sep c && posixpath.all_sep r.
Proof. reflexivity. Qed.

Lemma rstrip_sep_added (d : string) :
  d <> EmptyString ->
  posixpath.endswith_sep d = false ->
  posixpath.rstrip_sep (d ++ String posixpath.sep EmptyString) = d /\
  posixpath.all_sep (d ++ String posixpath.sep EmptyString) = false.
Proof.
  induction d as [ | c d IH]; [congruence | ]. intros _ E.
  destruct d as [ | c' d'].
  - cbn in E. cbn. rewrite E. cbn. split; reflexivity.
  - assert (E' : posixpath.endswith_sep (String c' d') = false) by exact E.
    destruct (IH ltac:(discriminate) E') as [R A].
    change (String c (String c' d') ++ String posixpath.sep EmptyString)
      with (String c (String c' d' ++ String posixpath.sep EmptyString)).
    rewrite rstrip_sep_cons, all_sep_cons, R, A.
    cbn [String.eqb]. rewrite !andb_false_r. split; reflexivity.
Qed.

Lemma rstrip_sep_no_trailing (h : string) :
  posixpath.endswith_sep (posixpath.rstrip_sep h) = false.
Proof.
  induction h as [ | c h IH]; [reflexivity | ].
  cbn [posixpath.rstrip_sep].
  destruct (posixpath.is_sep c) eqn:C;
    destruct (posixpath.rstrip_sep h) as [ | c' r] eqn:R; cbn;
    try reflexivity; try exact C; exact IH.
Qed.

(** The directory part of a name ends with a separator only when it
    consists of separators. *)
Lemma split_head_trailing (src : string) :
  posixpath.endswith_sep (fst (posixpath.split src)) = true ->
  posixpath.all_sep (fst (posixpath.split src)) = true.
Proof.
  unfold posixpath.split.
  destruct (match posixpath.rpartition src with
            | Some ht => ht
            | None => (EmptyString, src)
            end) as [h t].
  cbn [fst].
  destruct (String.eqb h EmptyString) eqn:H0; cbn [negb andb].
  - apply String.eqb_eq in H0. now subst h.
  - destruct (posixpath.all_sep h) eqn:A; cbn [negb].
    + intros _. exact A.
    + now rewrite rstrip_sep_no_trailing.
Qed.

Lemma split_join_sibling (d dst : string) :
  (posixpath.endswith_sep d = true -> posixpath.all_sep d = true) ->
  sep_free dst = true ->
  posixpath.split (posixpath.join d dst) = (d, dst).
Proof.
  intros H T. unfold posixpath.join.
  assert (S0 : posixpath.startswith_sep dst = false).
  { destruct dst as [ | c r]; [reflexivity | ]. cbn in T |- *.
    apply andb_true_iff in T. destruct T as [C _].
    now apply negb_true_iff in C. }
  rewrite S0.
  destruct (String.eqb d EmptyString) eqn:D0; cbn [orb].
  - apply String.eqb_eq in D0. subst d. cbn [String.append].
    unfold posixpath.split. now rewrite (sep_free_rpartition _ T).
  - destruct (posixpath.endswith_sep d) eqn:E.
    + unfold posixpath.split.
      rewrite (rpartition_after_trailing_sep _ _ E T).
      now rewrite (H eq_refl), andb_false_r.
    + unfold posixpath.split. rewrite (rpartition_after_sep _ _ T).
      apply String.eqb_neq in D0.
      destruct (rstrip_sep_added d D0 E) as [R A]. rewrite A, R.
      destruct (String.eqb (d ++ String posixpath.sep EmptyString)
                           EmptyString) eqn:Z; [ | reflexivity].
      apply String.eqb_eq in Z. destruct d; discriminate.
Qed.

(** X18.  For a destination without separator, the name [copy_relative]
    passes on is a sibling of the source: its directory part is that of
    the source and its last component is the destination given. *)
Theorem copy_relative_names_sibling (src dst : string) (s : St) :
  sep_free dst = true ->
  exists sibling,
    copy_relative src (Some dst) s = copy_full src (Some sibling) s /\
    posixpath.split sibling = (fst (posixpath.split src), dst).
Proof.
  intros T. exists (posixpath.join (fst (posixpath.split src)) dst). split.
  - unfold copy_relative. now destruct (posixpath.split src).
  - apply split_join_sibling; [apply split_head_trailing | exact T].
Qed.

End Properties.

(** * The controller on an in-memory library *)



(** The same path typed twice at the prompts collides as well, and two
    different paths do not. *)
Example init_prompted_collision :
  fst (LibrarianController 3 None None None
         (Shelf.a_world [] ["/a"; "y"; "/a"; "y"] 5 None))
  = Raise FolderCollisionException.
Proof. reflexivity. Qed.

Example init_prompted_distinct :
  let r := LibrarianController 3 None None None
             (Shelf.a_world [] ["/lib"; "y"; "/ws"; "y"] 5 None) in
  fst r = Ok tt /\
  self (snd r)
  = mkController (Some "/lib") (Some "/ws") None (Some 5) (Some 5)
                 (Some ["UserData"]).
Proof. split; reflexivity. Qed.

(** C2, at [delete_projects([], "*", safe=False)] on a library holding
    [a] and [b] with [a] assigned: the names are resolved by listing and
    the service is asked to delete exactly them, but with [safe=True]; the
    caller's [safe=False] is lost in the self-call. *)
Theorem delete_by_pattern_loses_safe :
  delete_projects 2 [] (Some "*") false
    (Shelf.a_state (Some "a") ["a"; "b"] [])
  = (Ok tt,
     mkState (Shelf.a_controller None)
             (logs [Call (ListProjects (Some "*"));
                    Call (DeleteProjects ["a"; "b"] true);
                    Print "Unassigned a from current project."]
                   (Shelf.a_world [] [] 5 None))).
Proof. reflexivity. Qed.

(** With the names given, the caller's [safe] reaches the service. *)
Example delete_named_keeps_safe :
  trace (world (snd (delete_projects 1 ["a"] None false
                       (Shelf.a_state (Some "b") ["a"; "b"] []))))
  = [Call (DeleteProjects ["a"] false)].
Proof. reflexivity. Qed.

Lemma assign_invalid_project_witness :
  confirms (Shelf.a_state None [] []) (Some "Proj1") = false /\
  fst (assign "Proj1" (Shelf.a_state None [] []))
  = Raise (InvalidProjectException "Proj1") /\
  current_project (self (snd (assign "Proj1" (Shelf.a_state None [] []))))
  = None.
Proof.
  split; [reflexivity | ].
  destruct (assign_invalid_project "Proj1" (Shelf.a_state None [] []))
    as [H _].
  destruct (H eq_refl) as [R [_ C]].
  split; [exact R | exact C].
Defined.

Lemma assign_twice_witness :
  confirms (Shelf.a_state (Some "b") ["a"; "b"] []) (Some "a") = true /\
  current_project
    (self (snd (assign "a"
                  (snd (assign "a"
                          (Shelf.a_state (Some "b") ["a"; "b"] []))))))
  = Some "a".
Proof.
  split; [reflexivity | ].
  apply (assign_twice "a" (Shelf.a_state (Some "b") ["a"; "b"] [])).
  reflexivity.
Defined.

Lemma load_is_assign_then_pull_witness :
  current_project (self (Shelf.a_state None ["a"] [])) = None /\
  load_project 1 "a" (Shelf.a_state None ["a"] [])
  = assign_then_pull "a" (Shelf.a_state None ["a"] []).
Proof.
  split; [reflexivity | ].
  apply (load_is_assign_then_pull 0 "a" (Shelf.a_state None ["a"] [])).
  left; reflexivity.
Defined.

Lemma load_declined_witness :
  current_project (self (Shelf.a_state (Some "b") ["a"; "b"] ["n"]))
  = Some "b" /\
  "b" <> "a" /\
  stdin (world (Shelf.a_state (Some "b") ["a"; "b"] ["n"])) = ["n"] /\
  "n" <> "y" /\
  self (snd (load_project 1 "a"
               (Shelf.a_state (Some "b") ["a"; "b"] ["n"])))
  = Shelf.a_controller (Some "b").
Proof.
  split; [reflexivity | ].
  split; [discriminate | ].
  split; [reflexivity | ].
  split; [discriminate | ].
  apply (load_declined 0 "a" "b" "n" []
           (Shelf.a_state (Some "b") ["a"; "b"] ["n"]));
    [reflexivity | discriminate | reflexivity | discriminate].
Defined.

Lemma copy_modes_witness :
  copy "a/b" None false (Shelf.a_state None ["a/b"] [])
  = copy_full "a/b" None (Shelf.a_state None ["a/b"] []) /\
  copy "a/b" (Some "c") false (Shelf.a_state None ["a/b"] [])
  = copy_full "a/b" (Some "a/c") (Shelf.a_state None ["a/b"] []).
Proof.
  destruct (copy_modes "a/b" None false (Shelf.a_state None ["a/b"] []))
    as [F _].
  destruct (copy_modes "a/b" (Some "c") false
              (Shelf.a_state None ["a/b"] [])) as [_ [R _]].
  split.
  - apply F. right; reflexivity.
  - apply (R "c"); reflexivity.
Defined.

(** C8, as stated, fails: after a persist the [modify_time] attribute of
    the controller is not the time of the persist. *)
Lemma update_metadata_leaves_modify_time :
  ~ (forall s : state nat (list string),
        modify_time (self (snd (update_metadata s)))
        = Some (clock (world s) (ticks (world s)))).
Proof.
  intros H. specialize (H (Shelf.a_state None [] [])). discriminate H.
Qed.

Example update_metadata_on_shelf :
  let s' := snd (update_metadata (Shelf.a_state (Some "a") ["a"] [])) in
  file (world s')
  = Some (mkMetadata (Some "/lib") (Some "/ws") (Some "a") (Some 0)
                     (Some 5) (Some ["UserData"])) /\
  modify_time (self s') = Some 0.
Proof. split; reflexivity. Qed.

Lemma display_status_unassigns_unknown_witness :
  confirms (Shelf.a_state (Some "gone") ["a"] []) (Some "gone") = false /\
  current_project
    (self (snd (display_status (Shelf.a_state (Some "gone") ["a"] []))))
  = None.
Proof.
  split; [reflexivity | ].
  destruct (display_status_unassigns_unknown
              (Shelf.a_state (Some "gone") ["a"] [])) as [_ [U _]].
  apply U. reflexivity.
Defined.

(** C10, on an empty library: [delete_projects([], "*")] never returns;
    whatever depth the interpreter allows, the self-calls use it up. *)
Theorem delete_on_empty_library_never_returns :
  forall (depth : nat) (safe : bool),
    fst (delete_projects depth [] (Some "*") safe
           (Shelf.a_state None [] []))
    = Raise RecursionError.
Proof.
  intros depth safe. apply delete_never_returns; reflexivity.
Qed.

(** ** Runs of the further properties *)

Lemma get_path_returns_checked_path_witness :
  get_path 2 "library"
    (mkState blank (Shelf.a_world [] ["/a"; "y"] 5 None))
  = (Ok "/a",
     snd (get_path 2 "library"
            (mkState blank (Shelf.a_world [] ["/a"; "y"] 5 None)))) /\
  exists q,
    path_found (Shelf.a_world [] ["/a"; "y"] 5 None) q = true /\
    "/a" = realpath (Shelf.a_world [] ["/a"; "y"] 5 None) q.
Proof.
  split; [reflexivity | ].
  apply (get_path_returns_checked_path 2 "library"
           (mkState blank (Shelf.a_world [] ["/a"; "y"] 5 None))
           (snd (get_path 2 "library"
                   (mkState blank (Shelf.a_world [] ["/a"; "y"] 5 None))))
           "/a").
  reflexivity.
Defined.


Lemma get_path_three_invalid_witness :
  stdin (world (mkState blank
                  (Shelf.a_world [] ["/a"; "x"; "yes"; "no"; "y"] 5 None)))
  = ["/a"; "x"; "yes"; "no"; "y"] /\
  path_found (Shelf.a_world [] ["/a"; "x"; "yes"; "no"; "y"] 5 None)
             (typed_path "/a") = true /\
  in_ynq "x" = false /\ in_ynq "yes" = false /\ in_ynq "no" = false /\
  fst (get_path 1 "library"
         (mkState blank
            (Shelf.a_world [] ["/a"; "x"; "yes"; "no"; "y"] 5 None)))
  = Raise (KeyboardInterrupt
             "Quitting process due to multiple invalid arguments.").
Proof.
  repeat (split; [reflexivity | ]).
  apply (get_path_three_invalid 0 "library" "/a" "x" "yes" "no" ["y"]
           (mkState blank
              (Shelf.a_world [] ["/a"; "x"; "yes"; "no"; "y"] 5 None)));
    reflexivity.
Defined.

Lemma get_path_accepts_witness :
  stdin (world (mkState blank
                  (Shelf.a_world [] [EmptyString; "y"; "later"] 5 None)))
  = [EmptyString; "y"; "later"] /\
  path_found (Shelf.a_world [] [EmptyString; "y"; "later"] 5 None)
             (typed_path EmptyString) = true /\
  fst (get_path 1 "workspace"
         (mkState blank
            (Shelf.a_world [] [EmptyString; "y"; "later"] 5 None)))
  = Ok ".".
Proof.
  repeat (split; [reflexivity | ]).
  apply (get_path_accepts 0 "workspace" EmptyString ["later"]
           (mkState blank
              (Shelf.a_world [] [EmptyString; "y"; "later"] 5 None)));
    reflexivity.
Defined.

Lemma init_fresh_witness :
  file (Shelf.a_world [] [] 7 None) = None /\
  "/lib" <> "/ws" /\
  self (snd (LibrarianController 1 (Some "/lib") (Some "/ws") (Some [])
               (Shelf.a_world [] [] 7 None)))
  = mkController (Some "/lib") (Some "/ws") None (Some 7) (Some 7)
                 (Some ["UserData"]).
Proof.
  split; [reflexivity | split; [discriminate | ]].
  apply (init_fresh 1 "/lib" "/ws" (Some [])
           (Shelf.a_world [] [] 7 None));
    [reflexivity | discriminate].
Defined.

Lemma init_quit_witness :
  file (Shelf.a_world ["a"] ["/lib"; "q"] 7 None) = None /\
  stdin (Shelf.a_world ["a"] ["/lib"; "q"] 7 None) = ["/lib"; "q"] /\
  path_found (Shelf.a_world ["a"] ["/lib"; "q"] 7 None)
             (typed_path "/lib") = true /\
  fst (LibrarianController 1 None (Some "/ws") None
         (Shelf.a_world ["a"] ["/lib"; "q"] 7 None))
  = Raise (KeyboardInterrupt "Quitting process.").
Proof.
  repeat (split; [reflexivity | ]).
  apply (init_quit 0 (Some "/ws") None "/lib" []
           (Shelf.a_world ["a"] ["/lib"; "q"] 7 None));
    reflexivity.
Defined.

Lemma pull_push_outcome_witness :
  current_project (self (Shelf.a_state None ["a"] [])) = None /\
  push (Shelf.a_state None ["a"] [])
  = (Ok tt,
     with_world (log (Print "No assigned project to push to."))
                (Shelf.a_state None ["a"] [])).
Proof.
  split; [reflexivity | ].
  destruct (pull_push_outcome (Shelf.a_state None ["a"] []))
    as [_ [_ [H _]]].
  destruct (H eq_refl) as [_ P]. exact P.
Defined.

Lemma load_overwrite_witness :
  current_project (self (Shelf.a_state (Some "b") ["b"] ["y"]))
  = Some "b" /\
  "b" <> "gone" /\
  stdin (world (Shelf.a_state (Some "b") ["b"] ["y"])) = ["y"] /\
  confirms (Shelf.a_state (Some "b") ["b"] ["y"]) (Some "gone") = false /\
  fst (load_project 2 "gone" (Shelf.a_state (Some "b") ["b"] ["y"]))
  = Raise (InvalidProjectException "gone") /\
  current_project
    (self (snd (load_project 2 "gone"
                  (Shelf.a_state (Some "b") ["b"] ["y"]))))
  = None.
Proof.
  split; [reflexivity | ].
  split; [discriminate | ].
  split; [reflexivity | ].
  split; [reflexivity | ].
  destruct (load_overwrite 0 "gone" "b" []
              (Shelf.a_state (Some "b") ["b"] ["y"]))
    as [_ H]; [reflexivity | discriminate | reflexivity | ].
  apply H. reflexivity.
Defined.

Lemma delete_named_outcome_witness :
  ["a"] <> [] /\
  current_project
    (self (snd (delete_projects 1 ["a"] None false
                  (Shelf.a_state (Some "a") ["a"; "b"] []))))
  = None /\
  svc (world (snd (delete_projects 1 ["a"] None false
                     (Shelf.a_state (Some "a") ["a"; "b"] []))))
  = ["b"].
Proof.
  split; [discriminate | ].
  destruct (delete_named_outcome 0 ["a"] None false
              (Shelf.a_state (Some "a") ["a"; "b"] []))
    as [_ [V C]]; [discriminate | ].
  split; [exact C | exact V].
Defined.

Lemma copy_relative_names_sibling_witness :
  sep_free "c" = true /\
  exists sibling,
    copy_relative "a/b" (Some "c") (Shelf.a_state None ["a/b"] [])
    = copy_full "a/b" (Some sibling) (Shelf.a_state None ["a/b"] []) /\
    posixpath.split sibling = (fst (posixpath.split "a/b"), "c").
Proof.
  split; [reflexivity | ].
  apply (copy_relative_names_sibling "a/b" "c"
           (Shelf.a_state None ["a/b"] [])).
  reflexivity.
Defined.

(** The listing of a shelf, sorted. *)
Example list_projects_on_shelf :
  trace (world (snd (list_projects (Some "*")
                       (Shelf.a_state None ["b"; "a/z"; "B"; "a"] []))))
  = [Print "-----"; Call (ListProjects (Some "*"));
     Print "- B"; Print "- a"; Print "- a/z"; Print "- b";
     Print "-----"].
Proof. reflexivity. Qed.
